(** * moniker_client: a shallow embedding of the client runtime

    The development follows the layout of the Python package:

    - [PyStr]      the [str] methods the sources call,
    - [PyVal]      the JSON-like values carried in parameter mappings,
    - [Exn]        the exceptions and the result of a call that may raise,
    - [Resilience] [resilience.py]: the retry engine and the circuit breaker,
    - [Client]     [client.py]: [Moniker], [MonikerClient._resolve],
                   [resolve], [batch_resolve] and [read],
    - [Oracle]     [adapters/oracle.py]: the query rewriting passes,
    - [Scenario]   concrete clients, resolvers and bindings,
    - [Runs]       runs of the breaker and of the retry engine,
    - [Endpoints]  [client.py]: [describe], [lineage], and [read] with an
                   adapter that acts on the world,
    - [OracleConnections], [OracleFilters]
                   [adapters/oracle.py]: the connection cache and the
                   filters.

    Strings are sequences of 8-bit characters, with case mapping and digit
    tests on the ASCII range; clock readings, delays and time-outs (Python
    floats) are rationals. A method of the client is a function of the
    client object and of the world outside it (clocks, random source,
    resolver, adapters, and the trace of what the client emitted) that
    returns both along with its result; an exception leaves the state
    reached when it was raised. Request headers, the calls of the
    [logging] module other than the deprecation record, and the warning
    filters of the [warnings] module are not modelled. *)

From Stdlib Require Import String Ascii List ZArith QArith Lia Lqa Bool.
From Stdlib Require Import DecimalString Qminmax Qpower Qabs.
From stdpp Require Import gmap strings.
Import ListNotations.

Local Open Scope string_scope.
Local Open Scope list_scope.

(* ===================================================================== *)
(** ** Python string methods *)
(* ===================================================================== *)

Module PyStr.

(** [s.startswith(p)] *)
Definition startswith (p s : string) : bool := String.prefix p s.

(** [s[n:]] *)
Fixpoint drop (n : nat) (s : string) : string :=
  match n, s with
  | O, _ => s
  | S _, EmptyString => EmptyString
  | S k, String _ t => drop k t
  end.

(** [s[:n]] *)
Fixpoint take (n : nat) (s : string) : string :=
  match n, s with
  | O, _ => EmptyString
  | S _, EmptyString => EmptyString
  | S k, String a t => String a (take k t)
  end.

(** [s.lstrip(chars)], the set [chars] given by its membership test. *)
Fixpoint lstrip_by (P : ascii -> bool) (s : string) : string :=
  match s with
  | EmptyString => EmptyString
  | String a t => if P a then lstrip_by P t else s
  end.

(** [s.rstrip(chars)] *)
Fixpoint rstrip_by (P : ascii -> bool) (s : string) : string :=
  match s with
  | EmptyString => EmptyString
  | String a t =>
      match rstrip_by P t with
      | EmptyString => if P a then EmptyString else String a EmptyString
      | r => String a r
      end
  end.

(** [s.strip(chars)] *)
Definition strip_by (P : ascii -> bool) (s : string) : string :=
  lstrip_by P (rstrip_by P s).

Definition is_char (c : ascii) : ascii -> bool := Ascii.eqb c.

(** [s.strip("/")], [s.rstrip(";")] *)
Definition strip (c : ascii) : string -> string := strip_by (is_char c).
Definition rstrip (c : ascii) : string -> string := rstrip_by (is_char c).

(** The characters [str.isspace] accepts below code point 256. *)
Definition isspace (a : ascii) : bool :=
  let n := nat_of_ascii a in
  (((9 <=? n) && (n <=? 13)) || ((28 <=? n) && (n <=? 32))
   || (n =? 133) || (n =? 160))%nat.

(** [s.rstrip()] *)
Definition rstrip_ws : string -> string := rstrip_by isspace.

(** [s.split(sep)] for a one-character separator. *)
Fixpoint split (sep : ascii) (s : string) : list string :=
  match s with
  | EmptyString => [EmptyString]
  | String a t =>
      if Ascii.eqb a sep then EmptyString :: split sep t
      else match split sep t with
           | h :: r => String a h :: r
           | [] => [String a EmptyString]
           end
  end.

(** [sep.join(l)] *)
Fixpoint join (sep : string) (l : list string) : string :=
  match l with
  | [] => EmptyString
  | x :: r =>
      match r with
      | [] => x
      | _ :: _ => x ++ sep ++ join sep r
      end
  end.

(** [s.find(sub)]: [None] stands for Python's [-1]. *)
Fixpoint find (sub s : string) : option nat :=
  if String.prefix sub s then Some O
  else match s with
       | EmptyString => None
       | String _ t => option_map S (find sub t)
       end.

(** [s.find(sub, start)] *)
Definition find_from (sub s : string) (start : nat) : option nat :=
  if (start <=? String.length s)%nat
  then option_map (fun i => (start + i)%nat) (find sub (drop start s))
  else None.

(** [sub in s] *)
Definition contains (sub s : string) : bool :=
  match find sub s with Some _ => true | None => false end.

(** [s.upper()] on the ASCII letters. *)
Definition upper_char (a : ascii) : ascii :=
  let n := nat_of_ascii a in
  if ((97 <=? n) && (n <=? 122))%nat then ascii_of_nat (n - 32) else a.

Fixpoint upper (s : string) : string :=
  match s with
  | EmptyString => EmptyString
  | String a t => String (upper_char a) (upper t)
  end.

(** [s.isdigit()] on the ASCII digits: non-empty and all digits. *)
Definition is_digit_char (a : ascii) : bool :=
  let n := nat_of_ascii a in ((48 <=? n) && (n <=? 57))%nat.

Fixpoint all_chars (P : ascii -> bool) (s : string) : bool :=
  match s with
  | EmptyString => true
  | String a t => P a && all_chars P t
  end.

Definition isdigit (s : string) : bool :=
  match s with
  | EmptyString => false
  | _ => all_chars is_digit_char s
  end.

(** [s.isascii()]: on such strings [upper] and [isdigit] above are the
    methods of Python, character for character. *)
Definition is_ascii_char (a : ascii) : bool := (nat_of_ascii a <? 128)%nat.

Definition isascii (s : string) : bool := all_chars is_ascii_char s.

(** [s.replace(old, new)] for a non-empty [old]: occurrences are replaced
    left to right without overlap; [skip] counts the characters of the
    occurrence just replaced that are still to be passed over. *)
Fixpoint replace_go (old new : string) (skip : nat) (s : string) : string :=
  match s with
  | EmptyString => EmptyString
  | String a t =>
      match skip with
      | S k => replace_go old new k t
      | O =>
          if String.prefix old s
          then new ++ replace_go old new (String.length old - 1) t
          else String a (replace_go old new O t)
      end
  end.

Definition replace (old new s : string) : string := replace_go old new O s.

(** [str(n)] for an integer. *)
Definition str_of_Z (z : Z) : string := NilEmpty.string_of_int (Z.to_int z).

End PyStr.

(* ===================================================================== *)
(** ** Python values *)
(* ===================================================================== *)

Module PyVal.

(** The values a JSON body decodes to, and tuples; floats are left out
    (nothing below depends on how a float prints). A [dict] keeps its
    insertion order, so it is an association list with distinct keys. *)
#[warnings="-register-all"] Inductive pyval :=
| PNone
| PBool (b : bool)
| PInt (z : Z)
| PStr (s : string)
| PList (l : list pyval)
| PTuple (l : list pyval)
| PDict (d : list (string * pyval)).

Definition pydict := list (string * pyval).

(** [d.get(k)], [None] when the key is absent. *)
Fixpoint dict_get (d : pydict) (k : string) : pyval :=
  match d with
  | [] => PNone
  | (k', v) :: r => if String.eqb k' k then v else dict_get r k
  end.

(** [k in d] *)
Fixpoint dict_mem (d : pydict) (k : string) : bool :=
  match d with
  | [] => false
  | (k', _) :: r => String.eqb k' k || dict_mem r k
  end.

(** [d[k] = v]: an existing key keeps its position, a new one goes last. *)
Fixpoint dict_set (d : pydict) (k : string) (v : pyval) : pydict :=
  match d with
  | [] => [(k, v)]
  | (k', v') :: r =>
      if String.eqb k' k then (k', v) :: r else (k', v') :: dict_set r k v
  end.

(** Truth value of an object, as [if x:] and [x or y] test it. *)
Definition truthy (v : pyval) : bool :=
  match v with
  | PNone => false
  | PBool b => b
  | PInt z => negb (z =? 0)%Z
  | PStr s => negb (String.eqb s "")
  | PList l | PTuple l => match l with [] => false | _ => true end
  | PDict d => match d with [] => false | _ => true end
  end.

(** [x or y] *)
Definition py_or (x y : pyval) : pyval := if truthy x then x else y.

Definition is_none (v : pyval) : bool :=
  match v with PNone => true | _ => false end.
Definition is_str (v : pyval) : bool :=
  match v with PStr _ => true | _ => false end.
Definition is_dict (v : pyval) : bool :=
  match v with PDict _ => true | _ => false end.

Definition hex_digit (n : nat) : ascii :=
  if (n <? 10)%nat then ascii_of_nat (48 + n) else ascii_of_nat (87 + n).

(** One character of [repr(s)], inside the quotes [q]. *)
Definition repr_char (q : ascii) (a : ascii) : string :=
  let n := nat_of_ascii a in
  if Ascii.eqb a "\" then "\\"
  else if Ascii.eqb a q then String "\" (String q "")
  else if (n =? 10)%nat then "\n"
  else if (n =? 13)%nat then "\r"
  else if (n =? 9)%nat then "\t"
  else if ((n <? 32) || ((127 <=? n) && (n <=? 160)) || (n =? 173))%nat
       then String "\" (String "x" (String (hex_digit (n / 16))
                                       (String (hex_digit (n mod 16)) "")))
  else String a "".

Fixpoint repr_chars (q : ascii) (s : string) : string :=
  match s with
  | EmptyString => EmptyString
  | String a t => repr_char q a ++ repr_chars q t
  end.

(** [repr(s)] of a string: double quotes only when [s] has a single quote
    and no double quote. *)
Definition dquote : ascii := ascii_of_nat 34.

Definition repr_str (s : string) : string :=
  let q : ascii :=
    if PyStr.contains "'" s && negb (PyStr.contains (String dquote "") s)
    then dquote else "'"%char in
  String q (repr_chars q s ++ String q "").

(** [repr(v)] *)
Fixpoint py_repr (v : pyval) : string :=
  match v with
  | PNone => "None"
  | PBool true => "True"
  | PBool false => "False"
  | PInt z => PyStr.str_of_Z z
  | PStr s => repr_str s
  | PList l => "[" ++ PyStr.join ", " (map py_repr l) ++ "]"
  | PTuple l =>
      match l with
      | [x] => "(" ++ py_repr x ++ ",)"
      | _ => "(" ++ PyStr.join ", " (map py_repr l) ++ ")"
      end
  | PDict d =>
      "{" ++ PyStr.join ", "
               (map (fun kv : string * pyval =>
                       match kv with
                       | (k, x) => (repr_str k ++ ": " ++ py_repr x)%string
                       end) d) ++ "}"
  end.

(** [type(v).__name__] *)
Definition py_type (v : pyval) : string :=
  match v with
  | PNone => "NoneType"
  | PBool _ => "bool"
  | PInt _ => "int"
  | PStr _ => "str"
  | PList _ => "list"
  | PTuple _ => "tuple"
  | PDict _ => "dict"
  end.

(** [str(v)], which is also what an f-string field [{v}] prints. *)
Definition py_str (v : pyval) : string :=
  match v with
  | PStr s => s
  | _ => py_repr v
  end.

End PyVal.

(* ===================================================================== *)
(** ** Exceptions *)
(* ===================================================================== *)

Module Exn.

(** The exceptions that travel through the client. [BreakerOpen] is the
    built-in [ConnectionError] raised by the circuit breaker; its message
    embeds the remaining cool-down, kept here as a number. [FetchError]
    keeps the moniker and the cause its message is built from. *)
#[warnings="-register-all"] Inductive exn :=
| NotFoundError (msg : string)
| ResolutionError (msg : string)
| FetchError (moniker : string) (cause : exn)
| BreakerOpen (remaining : Q)
| RetryExhausted (msg : string) (last_exception : option exn)
| HTTPStatusError (status_code : Z)
| OtherError (type_name : string) (msg : string).

(** [type(e).__name__] *)
Definition type_name (e : exn) : string :=
  match e with
  | NotFoundError _ => "NotFoundError"
  | ResolutionError _ => "ResolutionError"
  | FetchError _ _ => "FetchError"
  | BreakerOpen _ => "ConnectionError"
  | RetryExhausted _ _ => "RetryExhausted"
  | HTTPStatusError _ => "HTTPStatusError"
  | OtherError n _ => n
  end.

(** [e.response.status_code], for the exceptions that have one. *)
Definition response_status (e : exn) : option Z :=
  match e with
  | HTTPStatusError c => Some c
  | _ => None
  end.

(** [isinstance(e, NotFoundError)] *)
Definition is_not_found (e : exn) : bool :=
  match e with NotFoundError _ => true | _ => false end.

Inductive Result (A : Type) :=
| Ok (a : A)
| Raise (e : exn).
Arguments Ok {A} a.
Arguments Raise {A} e.

End Exn.

(* ===================================================================== *)
(** ** resilience.py *)
(* ===================================================================== *)

Module Resilience.
Import Exn.

Record RetryConfig := {
  max_retries : Z;
  base_delay_seconds : Q;
  max_delay_seconds : Q;
  exponential_base : Q;
  retryable_status_codes : gset Z
}.

Definition default_RetryConfig : RetryConfig :=
  {| max_retries := 3;
     base_delay_seconds := 1 # 2;
     max_delay_seconds := 30;
     exponential_base := 2;
     retryable_status_codes := {[ 429%Z; 502%Z; 503%Z; 504%Z ]} |}.

(** The classifier inside the [except] clause of [retry_with_backoff]. *)
Definition is_retryable (config : RetryConfig) (e : exn) : bool :=
  match response_status e with
  | Some c => bool_decide (c ∈ retryable_status_codes config)
  | None => false
  end
  || existsb (fun t => PyStr.contains t (type_name e))
             ["Connection"; "Timeout"; "Network"].

(** [min(base * exponential_base ** attempt, max_delay) * (0.75 + r * 0.5)] *)
Definition backoff_delay (config : RetryConfig) (attempt : nat) (r : Q) : Q :=
  Qmin (base_delay_seconds config
        * Qpower (exponential_base config) (Z.of_nat attempt))
       (max_delay_seconds config)
  * ((3 # 4) + r * (1 # 2)).

Section Retry.
(** The engine runs in any state that offers a random source and a
    sleep; [func] is the work, with its arguments already applied. *)
Context {St T : Type}.
Variable random : St -> Q * St.
Variable sleep : Q -> St -> St.
Variable func : St -> Result T * St.
Variable config : RetryConfig.

(** The body of [for attempt in range(config.max_retries + 1)], and the
    [raise RetryExhausted] that follows the loop. The handler itself is
    taken not to raise: its power does not overflow and its delay is one
    that [time.sleep] accepts, as with the default configuration. *)
Fixpoint retry_loop (attempts : list nat) (last_exception : option exn)
         (st : St) : Result T * St :=
  match attempts with
  | [] =>
      (Raise (RetryExhausted
                ("All " ++ PyStr.str_of_Z (max_retries config)
                        ++ " retries exhausted")
                last_exception), st)
  | attempt :: rest =>
      match func st with
      | (Ok v, st1) => (Ok v, st1)
      | (Raise e, st1) =>
          if negb (is_retryable config e)
             || (Z.of_nat attempt =? max_retries config)%Z
          then (Raise e, st1)
          else
            let (r, st2) := random st1 in
            retry_loop rest (Some e)
                       (sleep (backoff_delay config attempt r) st2)
      end
  end.

Definition retry_with_backoff (st : St) : Result T * St :=
  retry_loop (seq 0 (Z.to_nat (max_retries config + 1))) None st.

(** The work fails with a retryable error whenever it is invoked. *)
Definition always_retryable : Prop :=
  forall st, exists e st',
    func st = (Raise e, st') /\ is_retryable config e = true.
End Retry.

Inductive ClientCircuitState := CLOSED | OPEN | HALF_OPEN.

Record ClientCircuitBreaker := {
  failure_threshold : Z;
  recovery_timeout : Q;
  success_threshold : Z;
  _state : ClientCircuitState;
  _failure_count : Z;
  _success_count : Z;
  _opened_at : Q
}.

(** The dataclass constructor: the three thresholds are arguments, the
    private fields start from their defaults. *)
Definition new_breaker (ft : Z) (rt : Q) (st : Z) : ClientCircuitBreaker :=
  {| failure_threshold := ft; recovery_timeout := rt; success_threshold := st;
     _state := CLOSED; _failure_count := 0; _success_count := 0;
     _opened_at := 0 |}.

Definition default_breaker : ClientCircuitBreaker := new_breaker 5 30 2.

(** [before_request]: [now] and [now'] are the two readings of
    [time.monotonic()], the second one taken for the message. *)
Definition before_request (now now' : Q) (cb : ClientCircuitBreaker)
  : Result unit * ClientCircuitBreaker :=
  match _state cb with
  | CLOSED => (Ok tt, cb)
  | OPEN =>
      if Qle_bool (recovery_timeout cb) (now - _opened_at cb)
      then (Ok tt,
            {| failure_threshold := failure_threshold cb;
               recovery_timeout := recovery_timeout cb;
               success_threshold := success_threshold cb;
               _state := HALF_OPEN;
               _failure_count := _failure_count cb;
               _success_count := 0;
               _opened_at := _opened_at cb |})
      else (Raise (BreakerOpen
                     (recovery_timeout cb - (now' - _opened_at cb))), cb)
  | HALF_OPEN => (Ok tt, cb)
  end.

Definition on_success (cb : ClientCircuitBreaker) : ClientCircuitBreaker :=
  match _state cb with
  | HALF_OPEN =>
      let sc := (_success_count cb + 1)%Z in
      if (success_threshold cb <=? sc)%Z
      then {| failure_threshold := failure_threshold cb;
              recovery_timeout := recovery_timeout cb;
              success_threshold := success_threshold cb;
              _state := CLOSED;
              _failure_count := 0;
              _success_count := sc;
              _opened_at := _opened_at cb |}
      else {| failure_threshold := failure_threshold cb;
              recovery_timeout := recovery_timeout cb;
              success_threshold := success_threshold cb;
              _state := HALF_OPEN;
              _failure_count := _failure_count cb;
              _success_count := sc;
              _opened_at := _opened_at cb |}
  | _ =>
      {| failure_threshold := failure_threshold cb;
         recovery_timeout := recovery_timeout cb;
         success_threshold := success_threshold cb;
         _state := _state cb;
         _failure_count := 0;
         _success_count := _success_count cb;
         _opened_at := _opened_at cb |}
  end.

(** [on_failure]: [now] is the reading of [time.monotonic()]. *)
Definition on_failure (now : Q) (cb : ClientCircuitBreaker)
  : ClientCircuitBreaker :=
  let fc := (_failure_count cb + 1)%Z in
  match _state cb with
  | HALF_OPEN =>
      {| failure_threshold := failure_threshold cb;
         recovery_timeout := recovery_timeout cb;
         success_threshold := success_threshold cb;
         _state := OPEN;
         _failure_count := fc;
         _success_count := _success_count cb;
         _opened_at := now |}
  | _ =>
      if (failure_threshold cb <=? fc)%Z
      then {| failure_threshold := failure_threshold cb;
              recovery_timeout := recovery_timeout cb;
              success_threshold := success_threshold cb;
              _state := OPEN;
              _failure_count := fc;
              _success_count := _success_count cb;
              _opened_at := now |}
      else {| failure_threshold := failure_threshold cb;
              recovery_timeout := recovery_timeout cb;
              success_threshold := success_threshold cb;
              _state := _state cb;
              _failure_count := fc;
              _success_count := _success_count cb;
              _opened_at := _opened_at cb |}
  end.

(** A work function that counts its invocations and always times out. *)
Definition timing_out (n : nat) : Result unit * nat :=
  (Raise (OtherError "ConnectTimeout" "timed out"), S n).

(** A run of failed requests, one [on_failure] per clock reading. *)
Definition failures (times : list Q) (cb : ClientCircuitBreaker)
  : ClientCircuitBreaker :=
  fold_left (fun b t => on_failure t b) times cb.

End Resilience.

(* ===================================================================== *)
(** ** client.py *)
(* ===================================================================== *)

Module Client.
Import Exn PyVal Resilience.

Definition scheme : string := "moniker://".

(** *** The Moniker value type

    The optional back-pointer to a client plays no part in navigation and
    is left out. *)
Record Moniker := { _path : string }.

(** [Moniker.__init__] *)
Definition Moniker_init (path : string) : Moniker :=
  let path := if PyStr.startswith scheme path
              then PyStr.drop (String.length scheme) path
              else path in
  {| _path := PyStr.strip "/" path |}.

(** The [path] and [uri] properties. *)
Definition Moniker_path (m : Moniker) : string := _path m.
Definition Moniker_uri (m : Moniker) : string := scheme ++ _path m.

(** [Moniker.child] *)
Definition child (m : Moniker) (subpath : string) : Moniker :=
  Moniker_init (_path m ++ "/" ++ PyStr.strip "/" subpath).

(** [Moniker.parent] *)
Definition parent (m : Moniker) : option Moniker :=
  if negb (PyStr.contains "/" (_path m)) then None
  else Some (Moniker_init
               (PyStr.join "/" (removelast (PyStr.split "/" (_path m))))).

(** [Moniker(p).child(s).parent().path], [None] when [parent()] is [None]
    and the attribute access fails. *)
Definition child_parent_path (p s : string) : option string :=
  option_map Moniker_path (parent (child (Moniker_init p) s)).

(** *** Records *)

Record ResolvedSource := {
  moniker : string;
  path : string;
  source_type : string;
  connection : pydict;
  query : option string;
  params : pydict;
  schema_info : option pydict;
  read_only : bool;
  ownership : pydict;
  binding_path : string;
  sub_path : option string;
  status : option string;
  deprecation_message : option string;
  successor : option string;
  sunset_deadline : option string;
  migration_guide_url : option string;
  redirected_from : option string
}.

Definition is_deprecated (r : ResolvedSource) : bool :=
  match status r with
  | Some s => String.eqb s "deprecated"
  | None => false
  end.

(** The settings of [ClientConfig] that [resolve], [batch_resolve] and
    [read] consult. The callback returns the exception it raises, if any. *)
Record ClientConfig := {
  service_url : string;
  report_telemetry : bool;
  cache_ttl : Q;
  deprecation_enabled : bool;
  warn_on_deprecated : bool;
  deprecation_callback :
    option (string -> option string -> option string -> option exn)
}.

(** *** The world outside the client

    The resolver is an oracle: its answer to a request may depend on the
    request and on how many requests came before. A decoded JSON body is
    seen through the two readers the client applies to it. *)

Inductive Method := GET | POST.

Inductive Payload :=
| NoBody
| BatchBody (monikers : list string)
| TelemetryBody (moniker outcome : string) (source_type : option string)
                (row_count : option nat) (error : option exn)
                (deprecated : bool) (successor : option string).

Record Request := { meth : Method; url : string; payload : Payload }.

Record Json := {
  as_binding : Result ResolvedSource;
  as_results : Result (list (Result ResolvedSource))
}.

Record Response := {
  status_code : Z;
  text : string;
  json : Result Json
}.

Inductive Outcome :=
| Answer (r : Response)
| Failure (e : exn).

Record Exchange := { elapsed : Q; outcome : Outcome }.

Inductive Event :=
| Http (rq : Request)
| Sleep (d : Q)
| Warn (msg : string)
| LogWarning (msg : string)
| Callback (path : string) (message successor : option string).

Record World := {
  wall : Q;
  mono : Q;
  randoms : list Q;
  server : nat -> Request -> Exchange;
  adapter : ResolvedSource -> Result pyval;
  trace : list Event
}.

Definition is_http (e : Event) : bool :=
  match e with Http _ => true | _ => false end.

(** Number of requests sent so far. *)
Definition sent (w : World) : nat := length (List.filter is_http (trace w)).

Definition emit (e : Event) (w : World) : World :=
  {| wall := wall w; mono := mono w; randoms := randoms w;
     server := server w; adapter := adapter w; trace := trace w ++ [e] |}.

Definition advance (d : Q) (w : World) : World :=
  {| wall := wall w + d; mono := mono w + d; randoms := randoms w;
     server := server w; adapter := adapter w; trace := trace w |}.

(** [time.sleep(d)] *)
Definition sleep (d : Q) (w : World) : World := emit (Sleep d) (advance d w).

(** [random.random()] *)
Definition random (w : World) : Q * World :=
  match randoms w with
  | [] => (0%Q, w)
  | r :: rest =>
      (r, {| wall := wall w; mono := mono w; randoms := rest;
             server := server w; adapter := adapter w; trace := trace w |})
  end.

(** One HTTP round trip. *)
Definition http (rq : Request) (w : World) : Outcome * World :=
  let ex := server w (sent w) rq in
  (outcome ex, emit (Http rq) (advance (elapsed ex) w)).

(** *** MonikerClient *)

Record MonikerClient := {
  config : ClientConfig;
  _cache : gmap string (ResolvedSource * Q);
  _retry_config : RetryConfig;
  _circuit_breaker : ClientCircuitBreaker
}.

Definition new_client (cfg : ClientConfig) : MonikerClient :=
  {| config := cfg; _cache := ∅;
     _retry_config := default_RetryConfig;
     _circuit_breaker := default_breaker |}.

Definition set_cache (self : MonikerClient)
           (c : gmap string (ResolvedSource * Q)) : MonikerClient :=
  {| config := config self; _cache := c;
     _retry_config := _retry_config self;
     _circuit_breaker := _circuit_breaker self |}.

Definition set_breaker (self : MonikerClient) (cb : ClientCircuitBreaker)
  : MonikerClient :=
  {| config := config self; _cache := _cache self;
     _retry_config := _retry_config self; _circuit_breaker := cb |}.

(** The cache test shared by [_resolve] and [batch_resolve]:
    [cache_ttl > 0 and m in _cache], then [time.time() - cached_at < ttl]. *)
Definition cache_hit (self : MonikerClient) (w : World) (m : string)
  : option ResolvedSource :=
  if Qlt_le_dec 0 (cache_ttl (config self)) then
    match _cache self !! m with
    | Some (resolved, cached_at) =>
        if Qlt_le_dec (wall w - cached_at) (cache_ttl (config self))
        then Some resolved else None
    | None => None
    end
  else None.

(** [if self.config.cache_ttl > 0: self._cache[key] = (resolved, time.time())] *)
Definition cache_write (self : MonikerClient) (w : World) (key : string)
           (resolved : ResolvedSource) : MonikerClient :=
  if Qlt_le_dec 0 (cache_ttl (config self))
  then set_cache self (<[ key := (resolved, wall w) ]> (_cache self))
  else self.

Definition opt_truthy (o : option string) : bool :=
  match o with
  | Some s => negb (String.eqb s "")
  | None => false
  end.

Definition deprecation_msg (r : ResolvedSource) : string :=
  "Moniker '" ++ path r ++ "' is deprecated."
  ++ (match deprecation_message r with
      | Some m => if String.eqb m "" then "" else " " ++ m
      | None => ""
      end)
  ++ (match successor r with
      | Some s => if String.eqb s "" then "" else " Successor: " ++ s
      | None => ""
      end).

(** The deprecation block, written out twice in the source (in [_resolve]
    and in the loop of [batch_resolve]): [warnings.warn], the log record
    and the callback. *)
Definition emit_deprecation (cfg : ClientConfig) (r : ResolvedSource)
           (w : World) : Result unit * World :=
  if deprecation_enabled cfg && is_deprecated r && warn_on_deprecated cfg
  then
    let w1 := emit (LogWarning (deprecation_msg r))
                   (emit (Warn (deprecation_msg r)) w) in
    match deprecation_callback cfg with
    | Some callback =>
        let w2 := emit (Callback (path r) (deprecation_message r)
                                 (successor r)) w1 in
        match callback (path r) (deprecation_message r) (successor r) with
        | Some e => (Raise e, w2)
        | None => (Ok tt, w2)
        end
    | None => (Ok tt, w1)
    end
  else (Ok tt, w).

(** [_do_resolve], the closure handed to the retry engine. *)
Definition _do_resolve (cfg : ClientConfig) (path : string) (w : World)
  : Result Json * World :=
  match http {| meth := GET;
                url := service_url cfg ++ "/resolve/" ++ path;
                payload := NoBody |} w with
  | (Failure e, w1) => (Raise e, w1)
  | (Answer response, w1) =>
      if (status_code response =? 404)%Z
      then (Raise (NotFoundError ("No source binding for: " ++ path)), w1)
      else if negb (status_code response =? 200)%Z
      then (Raise (ResolutionError
                     ("Resolution failed: " ++ text response)), w1)
      else (json response, w1)
  end.

(** The body of the [try] statement of [_resolve]. *)
Definition resolve_try (moniker path : string) (self : MonikerClient)
           (w : World) : Result ResolvedSource * MonikerClient * World :=
  match retry_with_backoff random sleep
          (_do_resolve (config self) path) (_retry_config self) w with
  | (Raise e, w1) => (Raise e, self, w1)
  | (Ok data, w1) =>
      match as_binding data with
      | Raise e => (Raise e, self, w1)
      | Ok resolved =>
          match emit_deprecation (config self) resolved w1 with
          | (Raise e, w2) => (Raise e, self, w2)
          | (Ok _, w2) =>
              let self1 := cache_write self w2 moniker resolved in
              (Ok resolved,
               set_breaker self1 (on_success (_circuit_breaker self1)), w2)
          end
      end
  end.

(** [MonikerClient._resolve] *)
Definition _resolve (moniker : string) (self : MonikerClient) (w : World)
  : Result ResolvedSource * MonikerClient * World :=
  match cache_hit self w moniker with
  | Some resolved => (Ok resolved, self, w)
  | None =>
      let path := PyStr.replace scheme "" moniker in
      match before_request (mono w) (mono w) (_circuit_breaker self) with
      | (Raise e, cb) => (Raise e, set_breaker self cb, w)
      | (Ok _, cb) =>
          match resolve_try moniker path (set_breaker self cb) w with
          | (Ok resolved, self1, w1) => (Ok resolved, self1, w1)
          | (Raise e, self1, w1) =>
              if is_not_found e then (Raise e, self1, w1)
              else (Raise e,
                    set_breaker self1
                      (on_failure (mono w1) (_circuit_breaker self1)), w1)
          end
      end
  end.

(** [if not m.startswith("moniker://"): m = f"moniker://{m}"] *)
Definition normalize (m : string) : string :=
  if PyStr.startswith scheme m then m else scheme ++ m.

(** [MonikerClient.resolve] *)
Definition resolve (moniker : string) (self : MonikerClient) (w : World)
  : Result ResolvedSource * MonikerClient * World :=
  _resolve (normalize moniker) self w.

(** The first loop of [batch_resolve]: cached entries go to [results],
    the other monikers to [uncached]. *)
Fixpoint batch_cached (self : MonikerClient) (w : World)
         (normalized : list string) (results : gmap string ResolvedSource)
         (uncached : list string)
  : gmap string ResolvedSource * list string :=
  match normalized with
  | [] => (results, uncached)
  | m :: rest =>
      match cache_hit self w m with
      | Some resolved =>
          batch_cached self w rest
            (<[ PyStr.replace scheme "" m := resolved ]> results) uncached
      | None => batch_cached self w rest results (uncached ++ [m])
      end
  end.

(** [for item in data.get("results", [])] *)
Fixpoint batch_items (items : list (Result ResolvedSource))
         (results : gmap string ResolvedSource) (self : MonikerClient)
         (w : World)
  : Result (gmap string ResolvedSource) * MonikerClient * World :=
  match items with
  | [] => (Ok results, self, w)
  | Raise e :: _ => (Raise e, self, w)
  | Ok resolved :: rest =>
      let results1 := <[ path resolved := resolved ]> results in
      match emit_deprecation (config self) resolved w with
      | (Raise e, w1) => (Raise e, self, w1)
      | (Ok _, w1) =>
          batch_items rest results1
            (cache_write self w1 (scheme ++ path resolved) resolved) w1
      end
  end.

(** [response.raise_for_status()] *)
Definition raise_for_status (response : Response) : Result unit :=
  if ((200 <=? status_code response) && (status_code response <=? 299))%Z
  then Ok tt else Raise (HTTPStatusError (status_code response)).

(** The request [batch_resolve] posts for the uncached monikers. *)
Definition batch_request (cfg : ClientConfig) (uncached : list string)
  : Request :=
  let paths := map (PyStr.replace scheme "") uncached in
  {| meth := POST;
     url := service_url cfg ++ "/resolve/batch";
     payload := BatchBody (map (String.append scheme) paths) |}.

(** The body of the [try] statement of [batch_resolve]. *)
Definition batch_try (uncached : list string)
           (results : gmap string ResolvedSource) (self : MonikerClient)
           (w : World)
  : Result (gmap string ResolvedSource) * MonikerClient * World :=
  match http (batch_request (config self) uncached) w with
  | (Failure e, w1) => (Raise e, self, w1)
  | (Answer response, w1) =>
      match raise_for_status response with
      | Raise e => (Raise e, self, w1)
      | Ok _ =>
          match json response with
          | Raise e => (Raise e, self, w1)
          | Ok data =>
              match as_results data with
              | Raise e => (Raise e, self, w1)
              | Ok items =>
                  match batch_items items results self w1 with
                  | (Raise e, self1, w2) => (Raise e, self1, w2)
                  | (Ok results1, self1, w2) =>
                      (Ok results1,
                       set_breaker self1
                         (on_success (_circuit_breaker self1)), w2)
                  end
              end
          end
      end
  end.

(** [MonikerClient.batch_resolve] *)
Definition batch_resolve (monikers : list string) (self : MonikerClient)
           (w : World)
  : Result (gmap string ResolvedSource) * MonikerClient * World :=
  let normalized := map normalize monikers in
  let (results, uncached) := batch_cached self w normalized ∅ [] in
  match uncached with
  | [] => (Ok results, self, w)
  | _ :: _ =>
      match before_request (mono w) (mono w) (_circuit_breaker self) with
      | (Raise e, cb) => (Raise e, set_breaker self cb, w)
      | (Ok _, cb) =>
          match batch_try uncached results (set_breaker self cb) w with
          | (Ok results1, self1, w1) => (Ok results1, self1, w1)
          | (Raise e, self1, w1) =>
              (Raise e,
               set_breaker self1
                 (on_failure (mono w1) (_circuit_breaker self1)), w1)
          end
      end
  end.

(** [_report_telemetry]: whatever comes back, or fails, is dropped. The
    measured latency is not part of the modelled payload. *)
Definition _report_telemetry (cfg : ClientConfig) (body : Payload)
           (w : World) : World :=
  snd (http {| meth := POST;
               url := service_url cfg ++ "/telemetry/access";
               payload := body |} w).

(** [len(data) if isinstance(data, (list, dict))] *)
Definition row_count_of (data : pyval) : option nat :=
  match data with
  | PList l => Some (length l)
  | PDict d => Some (length d)
  | _ => None
  end.

(** The [finally] clause of [read]. *)
Definition read_finally (cfg : ClientConfig) (body : Payload) (w : World)
  : World :=
  if report_telemetry cfg then _report_telemetry cfg body w else w.

(** [MonikerClient.read]. [get_adapter] and the adapter's [fetch] are the
    world's [adapter] oracle, which gives the result of the fetch and
    leaves the world alone. *)
Definition read (moniker : string) (self : MonikerClient) (w : World)
  : Result pyval * MonikerClient * World :=
  let moniker := normalize moniker in
  let cfg := config self in
  match _resolve moniker self w with
  | (Raise e, self1, w1) =>
      if is_not_found e
      then (Raise e, self1,
            read_finally cfg
              (TelemetryBody moniker "not_found" None None None false None)
              w1)
      else (Raise (FetchError moniker e), self1,
            read_finally cfg
              (TelemetryBody moniker "error" None None (Some e) false None)
              w1)
  | (Ok resolved, self1, w1) =>
      let st := Some (source_type resolved) in
      let dep := is_deprecated resolved in
      let suc := successor resolved in
      match adapter w1 resolved with
      | Ok data =>
          (Ok data, self1,
           read_finally cfg
             (TelemetryBody moniker "success" st (row_count_of data) None
                            dep suc) w1)
      | Raise e =>
          if is_not_found e
          then (Raise e, self1,
                read_finally cfg
                  (TelemetryBody moniker "not_found" st None None dep suc)
                  w1)
          else (Raise (FetchError moniker e), self1,
                read_finally cfg
                  (TelemetryBody moniker "error" st None (Some e) dep suc)
                  w1)
      end
  end.

(** *** Observations on a call and on a trace *)

(** What [read] raises for an exception caught by its handlers. *)
Definition surfaced (moniker : string) (cause : exn) : exn :=
  if is_not_found cause then cause else FetchError moniker cause.

(** The first attempt of a resolve is its last: it returns, or raises an
    error the retry engine does not retry. *)
Definition first_attempt_final (moniker : string) (self : MonikerClient)
           (w : World) : Prop :=
  match fst (_do_resolve (config self) (PyStr.replace scheme "" moniker) w)
  with
  | Ok _ => True
  | Raise e => is_retryable (_retry_config self) e = false
  end.


Definition is_resolve_get (cfg : ClientConfig) (path : string) (e : Event)
  : bool :=
  match e with
  | Http {| meth := GET; url := u |} =>
      String.eqb u (service_url cfg ++ "/resolve/" ++ path)
  | _ => false
  end.

(** Number of [GET /resolve/{path}] requests in a trace. *)
Definition resolve_gets (cfg : ClientConfig) (path : string)
           (t : list Event) : nat :=
  length (List.filter (is_resolve_get cfg path) t).

Definition is_warn (e : Event) : bool :=
  match e with Warn _ => true | _ => false end.
Definition is_callback (e : Event) : bool :=
  match e with Callback _ _ _ => true | _ => false end.

(** The warnings and the callback invocations a list of deprecated
    bindings gives rise to. *)
Definition warnings_for (items : list ResolvedSource) : list Event :=
  map (fun r => Warn (deprecation_msg r)) (List.filter is_deprecated items).

Definition callbacks_for (cfg : ClientConfig) (items : list ResolvedSource)
  : list Event :=
  match deprecation_callback cfg with
  | Some _ =>
      map (fun r => Callback (path r) (deprecation_message r) (successor r))
          (List.filter is_deprecated items)
  | None => []
  end.

(** Number of calls of [warnings.warn], and of the callback, in a trace. *)
Definition warns (t : list Event) : nat := length (List.filter is_warn t).
Definition callbacks (t : list Event) : nat := length (List.filter is_callback t).

End Client.

(* ===================================================================== *)
(** ** adapters/oracle.py: query rewriting *)
(* ===================================================================== *)

Module Oracle.
Import Exn PyVal.
Local Open Scope string_scope.

Definition _RESERVED_PARAMS : gset string :=
  {[ "moniker_version"; "moniker_revision"; "as_of"; "limit"; "offset";
     "order_by"; "method"; "response_path"; "query_params";
     "moniker_params" ]}.

Definition reserved (k : string) : bool := bool_decide (k ∈ _RESERVED_PARAMS).

(** The loop over [end_markers]: the smallest position found, starting
    from [end_pos]. *)
Definition first_marker (lookup : string -> option nat)
           (markers : list string) (end_pos : nat) : nat :=
  fold_left (fun acc marker =>
               match lookup marker with
               | Some pos => if (pos <? acc)%nat then pos else acc
               | None => acc
               end) markers end_pos.

Definition flashback_clause (as_of : string) : string :=
  if PyStr.isdigit as_of
  then " AS OF SCN " ++ as_of
  else " AS OF TIMESTAMP TO_TIMESTAMP('" ++ as_of
       ++ "', 'YYYY-MM-DD HH24:MI:SS')".

(** [_inject_flashback]; a value without [isdigit] raises. *)
Definition _inject_flashback (query : string) (as_of : pyval)
  : Result string :=
  let query_upper := PyStr.upper query in
  match as_of with
  | PStr a =>
      match PyStr.find " FROM " query_upper with
      | None => Ok query
      | Some from_pos =>
          let end_pos :=
            first_marker
              (fun marker => PyStr.find_from marker query_upper (from_pos + 6))
              [" WHERE "; " GROUP "; " ORDER "; " HAVING "; " UNION "; ";"]
              (String.length query) in
          Ok (PyStr.take end_pos query ++ flashback_clause a
              ++ PyStr.drop end_pos query)
      end
  | _ =>
      Raise (OtherError "AttributeError"
               ("'" ++ py_type as_of
                    ++ "' object has no attribute 'isdigit'"))
  end.

(** The two loops of [_extract_filters]. *)
Definition add_nested (filters : pydict) (kv : string * pyval) : pydict :=
  let (key, value) := kv in
  if negb (reserved key) && negb (is_none value)
  then dict_set filters key value else filters.

Definition add_top (filters : pydict) (kv : string * pyval) : pydict :=
  let (key, value) := kv in
  if negb (reserved key) && negb (is_dict value) && negb (is_none value)
  then dict_set filters key value else filters.

Definition _extract_filters (params : pydict) : pydict :=
  let moniker_params :=
    if dict_mem params "moniker_params"
    then dict_get params "moniker_params" else PDict [] in
  let filters :=
    match moniker_params with
    | PDict d => fold_left add_nested d []
    | _ => []
    end in
  fold_left add_top params filters.

(** One entry of [conditions]. *)
Definition condition (kv : string * pyval) : string :=
  let (key, value) := kv in
  match value with
  | PStr v => key ++ " = '" ++ v ++ "'"
  | PList l | PTuple l =>
      let values_str :=
        if forallb is_str l
        then PyStr.join ", "
               (map (fun v => ("'" ++ py_str v ++ "'")%string) l)
        else PyStr.join ", " (map py_str l) in
      key ++ " IN (" ++ values_str ++ ")"
  | _ => key ++ " = " ++ py_str value
  end.

(** [_inject_where_clause] *)
Definition _inject_where_clause (query : string) (filters : pydict)
  : string :=
  match filters with
  | [] => query
  | _ :: _ =>
      let query_upper := PyStr.upper query in
      let condition_str := PyStr.join " AND " (map condition filters) in
      match PyStr.find " WHERE " query_upper with
      | Some where_pos =>
          PyStr.take (where_pos + 7) query ++ condition_str ++ " AND "
          ++ PyStr.drop (where_pos + 7) query
      | None =>
          let insert_pos :=
            first_marker (fun marker => PyStr.find marker query_upper)
              [" GROUP "; " ORDER "; " HAVING "; " UNION "; ";"]
              (String.length query) in
          PyStr.take insert_pos query ++ " WHERE " ++ condition_str
          ++ PyStr.drop insert_pos query
      end
  end.

(** [_inject_limit] *)
Definition _inject_limit (query : string) (limit : pyval) : string :=
  if PyStr.contains "FETCH " (PyStr.upper query) then query
  else PyStr.rstrip_ws (PyStr.rstrip ";" query)
       ++ " FETCH FIRST " ++ py_str limit ++ " ROWS ONLY".

(** The three passes of [_build_query] over a query and a parameter
    mapping. *)
Definition build_query (query : option string) (params : pydict)
  : Result (option string) :=
  match query with
  | None => Ok None
  | Some "" => Ok None
  | Some query =>
      let as_of :=
        py_or (dict_get params "as_of") (dict_get params "moniker_version") in
      match (if truthy as_of then _inject_flashback query as_of
             else Ok query) with
      | Raise e => Raise e
      | Ok query1 =>
          let filters := _extract_filters params in
          let query2 :=
            match filters with
            | [] => query1
            | _ :: _ => _inject_where_clause query1 filters
            end in
          let limit := dict_get params "limit" in
          Ok (Some (if is_none limit then query2
                    else _inject_limit query2 limit))
      end
  end.

(** [_build_query] *)
Definition _build_query (resolved : Client.ResolvedSource)
  : Result (option string) :=
  build_query (Client.query resolved) (Client.params resolved).

(** Rewriting the rewritten query once more, with the same parameters. *)
Definition rewrite_twice (query : string) (params : pydict)
  : Result (option string) :=
  match build_query (Some query) params with
  | Ok (Some q1) => build_query (Some q1) params
  | r => r
  end.

(** A query with every whitespace character removed: two queries that
    differ here differ by more than whitespace. *)
Fixpoint squeeze (s : string) : string :=
  match s with
  | EmptyString => EmptyString
  | String a t => if PyStr.isspace a then squeeze t else String a (squeeze t)
  end.

Definition same_modulo_whitespace (a b : string) : Prop :=
  squeeze a = squeeze b.

End Oracle.

(* ===================================================================== *)
(** ** Concrete clients, resolvers and bindings *)
(* ===================================================================== *)

Module Scenario.
Import Exn PyVal Resilience Client.
Local Open Scope string_scope.

Definition binding : ResolvedSource :=
  {| moniker := "moniker://a/b"; path := "a/b"; source_type := "static";
     connection := []; query := None; params := []; schema_info := None;
     read_only := true; ownership := []; binding_path := "a";
     sub_path := Some "b"; status := Some "active";
     deprecation_message := None; successor := None;
     sunset_deadline := None; migration_guide_url := None;
     redirected_from := None |}.

Definition deprecated_binding : ResolvedSource :=
  {| moniker := "moniker://a/b"; path := "a/b"; source_type := "static";
     connection := []; query := None; params := []; schema_info := None;
     read_only := true; ownership := []; binding_path := "a";
     sub_path := Some "b"; status := Some "deprecated";
     deprecation_message := Some "use new.path";
     successor := Some "new/path";
     sunset_deadline := None; migration_guide_url := None;
     redirected_from := None |}.

(** The body of a [/resolve/{path}] answer: a binding object, which has
    no ["results"] key. *)
Definition body (r : ResolvedSource) : Json :=
  {| as_binding := Ok r; as_results := Ok [] |}.


Definition answer (code : Z) (txt : string) (j : Result Json) : Exchange :=
  {| elapsed := 1 # 100;
     outcome := Answer {| status_code := code; text := txt; json := j |} |}.

Definition no_json : Result Json :=
  Raise (OtherError "JSONDecodeError" "Expecting value").

Definition timeout : Exchange :=
  {| elapsed := 30;
     outcome := Failure (OtherError "ConnectTimeout" "timed out") |}.

Definition cfg (ttl : Q) (deprecation : bool) : ClientConfig :=
  {| service_url := "http://mock"; report_telemetry := true;
     cache_ttl := ttl; deprecation_enabled := deprecation;
     warn_on_deprecated := true;
     deprecation_callback := Some (fun _ _ _ => None) |}.

(** A world whose resolver gives the same answer to every request. *)
Definition world (ex : Exchange) : World :=
  {| wall := 1000; mono := 50; randoms := [];
     server := fun _ _ => ex;
     adapter := fun _ => Ok (PList []);
     trace := [] |}.

(** A client whose breaker has just been opened by five failures. *)
Definition tripped (c : ClientConfig) : MonikerClient :=
  set_breaker (new_client c)
              (failures [41; 42; 43; 44; 45]%Q default_breaker).

(** A client that resolved [a/b] ten seconds before [world]'s clock. *)
Definition warmed (c : ClientConfig) (r : ResolvedSource) : MonikerClient :=
  set_cache (new_client c) {[ "moniker://a/b" := (r, 990%Q) ]}.

End Scenario.

(* ===================================================================== *)
(** ** Runs of the breaker and of the retry engine *)
(* ===================================================================== *)

Module Runs.
Import Exn Resilience.

(** The three entry points of [ClientCircuitBreaker], with the clock
    readings each one takes. *)
Inductive BreakerCall :=
| BeforeRequest (now now' : Q)
| OnSuccess
| OnFailure (now : Q).

Definition breaker_call (c : BreakerCall) (cb : ClientCircuitBreaker)
  : ClientCircuitBreaker :=
  match c with
  | BeforeRequest now now' => snd (before_request now now' cb)
  | OnSuccess => on_success cb
  | OnFailure now => on_failure now cb
  end.

(** Any sequence of calls on a breaker. *)
Definition breaker_run (calls : list BreakerCall) (cb : ClientCircuitBreaker)
  : ClientCircuitBreaker :=
  fold_left (fun b c => breaker_call c b) calls cb.

(** [n] successful requests in a row. *)
Definition successes (n : nat) (cb : ClientCircuitBreaker)
  : ClientCircuitBreaker :=
  Nat.iter n on_success cb.




End Runs.

(* ===================================================================== *)
(** ** client.py: the plain endpoints *)
(* ===================================================================== *)

Module Endpoints.
Import Exn PyVal Resilience Client.
Local Open Scope string_scope.

(** The GET of [_do_resolve]. *)
Definition resolve_request (cfg : ClientConfig) (p : string) : Request :=
  {| meth := GET;
     url := (service_url cfg ++ "/resolve/" ++ p)%string;
     payload := NoBody |}.

(** What [_resolve] raises for an answer whose status is not 200. *)
Definition status_error (p : string) (resp : Response) : exn :=
  if (status_code resp =? 404)%Z
  then NotFoundError ("No source binding for: " ++ p)%string
  else ResolutionError ("Resolution failed: " ++ text resp)%string.

(** The outcome tag [read] reports for its result, and the tag a
    telemetry request carries. *)
Definition telemetry_outcome {A : Type} (res : Result A) : string :=
  match res with
  | Ok _ => "success"
  | Raise e => if is_not_found e then "not_found" else "error"
  end.

Definition telemetry_tag (rq : Request) : option string :=
  match payload rq with
  | TelemetryBody _ outcome _ _ _ _ _ => Some outcome
  | _ => None
  end.

(** [MonikerClient.read] with an adapter that acts on the world while it
    fetches: the REST adapter sends requests of its own, a database
    adapter takes time. [fetch resolved] stands for
    [get_adapter(resolved.source_type).fetch(resolved, self.config)]. *)
Definition read_with (fetch : ResolvedSource -> World -> Result pyval * World)
           (moniker : string) (self : MonikerClient) (w : World)
  : Result pyval * MonikerClient * World :=
  let moniker := normalize moniker in
  let cfg := config self in
  match _resolve moniker self w with
  | (Raise e, self1, w1) =>
      if is_not_found e
      then (Raise e, self1,
            read_finally cfg
              (TelemetryBody moniker "not_found" None None None false None)
              w1)
      else (Raise (FetchError moniker e), self1,
            read_finally cfg
              (TelemetryBody moniker "error" None None (Some e) false None)
              w1)
  | (Ok resolved, self1, w1) =>
      let st := Some (source_type resolved) in
      let dep := is_deprecated resolved in
      let suc := successor resolved in
      match fetch resolved w1 with
      | (Ok data, w2) =>
          (Ok data, self1,
           read_finally cfg
             (TelemetryBody moniker "success" st (row_count_of data) None
                            dep suc) w2)
      | (Raise e, w2) =>
          if is_not_found e
          then (Raise e, self1,
                read_finally cfg
                  (TelemetryBody moniker "not_found" st None None dep suc)
                  w2)
          else (Raise (FetchError moniker e), self1,
                read_finally cfg
                  (TelemetryBody moniker "error" st None (Some e) dep suc)
                  w2)
      end
  end.

(** The world in which the [finally] clause of [read] starts: after the
    resolution, and after the fetch when the resolution succeeded. *)
Definition before_finally
           (fetch : ResolvedSource -> World -> Result pyval * World)
           (moniker : string) (self : MonikerClient) (w : World) : World :=
  match _resolve (normalize moniker) self w with
  | (Raise _, _, w1) => w1
  | (Ok resolved, _, w1) => snd (fetch resolved w1)
  end.

(** The shape shared by [describe] and [lineage]: one GET, 404 turned
    into [NotFoundError], any other non-2xx status raised by
    [raise_for_status], the decoded body returned. *)
Definition get_json (endpoint moniker : string) (self : MonikerClient)
           (w : World) : Result Json * World :=
  let moniker := normalize moniker in
  let path := PyStr.replace scheme "" moniker in
  match http {| meth := GET;
                url := service_url (config self) ++ endpoint ++ path;
                payload := NoBody |} w with
  | (Failure e, w1) => (Raise e, w1)
  | (Answer response, w1) =>
      if (status_code response =? 404)%Z
      then (Raise (NotFoundError ("Path not found: " ++ path)), w1)
      else match raise_for_status response with
           | Raise e => (Raise e, w1)
           | Ok _ => (json response, w1)
           end
  end.

(** [MonikerClient.describe] *)
Definition describe : string -> MonikerClient -> World -> Result Json * World :=
  get_json "/describe/".

(** [MonikerClient.lineage] *)
Definition lineage : string -> MonikerClient -> World -> Result Json * World :=
  get_json "/lineage/".

End Endpoints.

(* ===================================================================== *)
(** ** adapters/oracle.py: the connection cache *)
(* ===================================================================== *)

Module OracleConnections.
Import Exn.
Local Open Scope string_scope.

(** Connections are handles; the driver tells whether a handle still
    answers a ping and what [oracledb.connect] gives. *)
Definition Conn := nat.

Record Driver := {
  ping_ok : Conn -> bool;
  connect : string -> string -> string -> Result Conn
}.

Inductive DriverCall :=
| Ping (conn : Conn)
| Connect (user password dsn : string).

(** [cache_key = f"{user}@{dsn}"] *)
Definition cache_key (user dsn : string) : string := user ++ "@" ++ dsn.

(** The tail of [_get_connection]: connect and cache. *)
Definition connect_and_cache (dsn user password : string) (oracledb : Driver)
           (cache : gmap string Conn) (calls : list DriverCall)
  : Result Conn * gmap string Conn * list DriverCall :=
  match connect oracledb user password dsn with
  | Ok conn => (Ok conn, <[ cache_key user dsn := conn ]> cache,
                (calls ++ [Connect user password dsn])%list)
  | Raise e => (Raise e, cache, (calls ++ [Connect user password dsn])%list)
  end.

(** [OracleAdapter._get_connection], on the adapter's
    [_connection_cache]; the driver calls made are returned in order. *)
Definition _get_connection (dsn user password : string) (oracledb : Driver)
           (cache : gmap string Conn)
  : Result Conn * gmap string Conn * list DriverCall :=
  match cache !! cache_key user dsn with
  | Some conn =>
      if ping_ok oracledb conn then (Ok conn, cache, [Ping conn])
      else connect_and_cache dsn user password oracledb
             (delete (cache_key user dsn) cache) [Ping conn]
  | None => connect_and_cache dsn user password oracledb cache []
  end.

End OracleConnections.

(* ===================================================================== *)
(** ** adapters/oracle.py: what filter extraction maintains *)
(* ===================================================================== *)

Module OracleFilters.
Import PyVal Oracle.

(** What the filters under construction satisfy at every step. *)
Definition filters_ok (filters : pydict) : Prop :=
  List.NoDup (map fst filters)
  /\ forall k v, In (k, v) filters -> reserved k = false /\ v <> PNone.

End OracleFilters.

(* ===================================================================== *)
(** * Properties *)
(* ===================================================================== *)

(** ** Strings *)

#[local] Arguments String.append !_ _ / : simpl nomatch.

Section StringFacts.
Import PyStr.
Local Open Scope string_scope.

Lemma append_nil_r (s : string) : s ++ "" = s.
Proof. induction s as [|a s IH]; simpl; [reflexivity | now rewrite IH]. Qed.

Lemma append_assoc (a b c : string) : (a ++ b) ++ c = a ++ (b ++ c).
Proof. induction a as [|x a IH]; simpl; [reflexivity | now rewrite IH]. Qed.

Lemma prefix_nil (s : string) : String.prefix "" s = true.
Proof. now destruct s. Qed.

Lemma prefix_app_self (sub b : string) : String.prefix sub (sub ++ b) = true.
Proof.
  induction sub as [|x sub IH]; simpl; [apply prefix_nil |].
  destruct (ascii_dec x x) as [_|n]; [exact IH | now destruct n].
Qed.

Lemma find_unfold (sub s : string) :
  find sub s = if String.prefix sub s then Some O
               else match s with
                    | EmptyString => None
                    | String _ t => option_map S (find sub t)
                    end.
Proof. destruct s; reflexivity. Qed.

(** An occurrence of [sub] is found wherever it is embedded. *)
Lemma contains_app (sub a b : string) : contains sub (a ++ sub ++ b) = true.
Proof.
  unfold contains.
  assert (H : exists n, find sub (a ++ sub ++ b) = Some n).
  { induction a as [|x a [n IH]].
    - exists O. change ("" ++ sub ++ b) with (sub ++ b).
      now rewrite find_unfold, prefix_app_self.
    - change (String x a ++ sub ++ b) with (String x (a ++ sub ++ b)).
      rewrite find_unfold.
      destruct (String.prefix sub (String x (a ++ sub ++ b))).
      + now exists O.
      + exists (S n). now rewrite IH. }
  destruct H as [n ->]. reflexivity.
Qed.

Lemma upper_app (a b : string) : upper (a ++ b) = upper a ++ upper b.
Proof. induction a as [|x a IH]; simpl; [reflexivity | now rewrite IH]. Qed.

Lemma lstrip_by_head P s c t : lstrip_by P s = String c t -> P c = false.
Proof.
  induction s as [|a s IH]; simpl; [discriminate |].
  destruct (P a) eqn:E; [exact IH |].
  intros H. injection H as -> _. exact E.
Qed.

Lemma lstrip_by_idem P s : lstrip_by P (lstrip_by P s) = lstrip_by P s.
Proof.
  induction s as [|a s IH]; simpl; [reflexivity |].
  destruct (P a) eqn:E; [exact IH | simpl; now rewrite E].
Qed.

Lemma rstrip_by_idem P s : rstrip_by P (rstrip_by P s) = rstrip_by P s.
Proof.
  induction s as [|a s IH]; simpl; [reflexivity |].
  destruct (rstrip_by P s) as [|b r] eqn:E.
  - destruct (P a) eqn:Ea; simpl; [reflexivity | now rewrite Ea].
  - cbn [rstrip_by]. cbn [rstrip_by] in IH. now rewrite IH.
Qed.

(** Stripping on the left keeps a string without trailing [P]s so. *)
Lemma rstrip_by_lstrip P t :
  rstrip_by P t = t -> rstrip_by P (lstrip_by P t) = lstrip_by P t.
Proof.
  induction t as [|a t IH]; simpl; [reflexivity |].
  intros H. destruct (P a) eqn:Ea.
  - apply IH. destruct (rstrip_by P t) as [|b r]; [discriminate |].
    now injection H.
  - simpl. rewrite Ea. exact H.
Qed.

Lemma strip_by_rstrip P s : rstrip_by P (strip_by P s) = strip_by P s.
Proof. unfold strip_by. apply rstrip_by_lstrip, rstrip_by_idem. Qed.

Lemma strip_by_idem P s : strip_by P (strip_by P s) = strip_by P s.
Proof.
  unfold strip_by at 1. rewrite strip_by_rstrip.
  unfold strip_by. apply lstrip_by_idem.
Qed.

Lemma rstrip_by_app P a b :
  b <> "" -> rstrip_by P b = b -> rstrip_by P (a ++ b) = a ++ b.
Proof.
  intros Hb Hr. induction a as [|x a IH]; simpl; [exact Hr |].
  rewrite IH. destruct (a ++ b) eqn:E; [| reflexivity].
  destruct a; simpl in E; [now destruct Hb | discriminate].
Qed.

Lemma split_nonempty c s : split c s <> [].
Proof.
  destruct s as [|a s]; simpl; [discriminate |].
  destruct (Ascii.eqb a c); [discriminate |].
  destruct (split c s); discriminate.
Qed.

Lemma split_app c a b :
  split c (a ++ String c b) = (split c a ++ split c b)%list.
Proof.
  induction a as [|x a IH]; simpl.
  - now rewrite Ascii.eqb_refl.
  - destruct (Ascii.eqb x c); rewrite IH; [reflexivity |].
    pose proof (split_nonempty c a) as Hne.
    destruct (split c a); [now destruct Hne | reflexivity].
Qed.

Lemma join_split c s : join (String c "") (split c s) = s.
Proof.
  induction s as [|a s IH]; [reflexivity |].
  cbn [split]. destruct (Ascii.eqb a c) eqn:E.
  - apply Ascii.eqb_eq in E. subst a.
    pose proof (split_nonempty c s) as Hne.
    cbn [join]. destruct (split c s) eqn:Es; [now destruct Hne |].
    simpl. simpl in IH. now rewrite IH.
  - pose proof (split_nonempty c s) as Hne.
    destruct (split c s) as [|h r]; [now destruct Hne |].
    destruct r as [|h' r]; simpl in *; now rewrite IH.
Qed.

Lemma contains_char_cons c a t :
  contains (String c "") (String a t) = false ->
  Ascii.eqb a c = false /\ contains (String c "") t = false.
Proof.
  unfold contains. cbn [find String.prefix].
  destruct (ascii_dec c a) as [->|ne].
  - destruct t; discriminate.
  - intros H. split.
    + apply Ascii.eqb_neq. congruence.
    + destruct (find (String c "") t); [discriminate | reflexivity].
Qed.

Lemma split_single c s : contains (String c "") s = false -> split c s = [s].
Proof.
  induction s as [|a s IH]; [reflexivity |].
  intros H. apply contains_char_cons in H as [E H].
  cbn [split]. rewrite E, (IH H). reflexivity.
Qed.

Lemma prefix_app_inv s a b :
  String.prefix s (a ++ b) = true ->
  String.prefix s a = true \/
  exists s2, s = a ++ s2 /\ String.prefix s2 b = true.
Proof.
  revert a. induction s as [|x s IH]; intros a H;
    [left; apply prefix_nil |].
  destruct a as [|y a].
  - right. exists (String x s). now split.
  - simpl in H |- *. destruct (ascii_dec x y) as [->|]; [| discriminate].
    destruct (IH a H) as [Hl | (s2 & -> & Hp)]; [now left |].
    right. now exists s2.
Qed.

End StringFacts.

(** ** Moniker navigation *)

Section MonikerFacts.
Import PyStr Client.
Local Open Scope string_scope.

(** A normalized path is a stripped string. *)
Lemma Moniker_init_stripped p :
  exists y, Moniker_path (Moniker_init p) = strip "/" y.
Proof.
  unfold Moniker_init, Moniker_path. cbn [_path].
  destruct (startswith scheme p); eauto.
Qed.

Lemma Moniker_init_id P :
  startswith scheme P = false -> strip "/" P = P ->
  Moniker_init P = {| _path := P |}.
Proof. intros H1 H2. unfold Moniker_init. now rewrite H1, H2. Qed.

(** Appending a separator and a segment to a stripped, non-empty path
    that does not start with the scheme never produces the scheme. *)
Lemma no_scheme_after_child y s :
  strip "/" y <> "" ->
  startswith scheme (strip "/" y) = false ->
  strip "/" s <> "" ->
  startswith scheme (strip "/" y ++ "/" ++ strip "/" s) = false.
Proof.
  intros Hne Hns Hs.
  destruct (startswith scheme (strip "/" y ++ "/" ++ strip "/" s)) eqn:E;
    [| reflexivity].
  exfalso. unfold startswith in *.
  apply prefix_app_inv in E as [E | (s2 & Heq & Hp)]; [congruence |].
  pose proof (strip_by_rstrip (is_char "/") y) as Hr.
  fold (strip "/" y) in Hr.
  assert (Hhead : forall t, strip "/" s = String "/" t -> False).
  { intros t Ht. unfold strip, strip_by in Ht.
    apply lstrip_by_head in Ht. discriminate. }
  unfold scheme in *.
  destruct (strip "/" y) as [|c0 P]; [now apply Hne |].
  clear Hne.
  repeat match goal with
  | H : String _ _ = String _ ?P ++ _ |- _ =>
      change (String ?a ?P ++ ?z) with (String a (P ++ z)) in H;
      injection H as <- H;
      destruct P as [|? ?];
      [ cbn [String.append] in H; subst s2 |]
  | H : "" = String _ _ ++ _ |- _ => discriminate H
  end;
  try (vm_compute in Hp; discriminate Hp);
  try (vm_compute in Hns; discriminate Hns);
  try (vm_compute in Hr; discriminate Hr).
  destruct (strip "/" s) as [|c t] eqn:Es; [now apply Hs |].
  change ("/" ++ String c t) with (String "/" (String c t)) in Hp.
  cbn [String.prefix] in Hp.
  destruct (ascii_dec "/" "/") as [_|ne]; [| now apply ne].
  destruct (ascii_dec "/" c) as [<-|]; [| discriminate].
  eapply Hhead; reflexivity.
Qed.

(** C9 (amended). For every path [p] whose normalized path is non-empty
    and does not itself begin with the scheme prefix, and every subpath
    [s] whose separator-stripped form is a single non-empty segment,
    [Moniker(p).child(s).parent()] exists and its path equals
    [Moniker(p).path]. *)
Theorem child_parent_roundtrip (p s : string) :
  Moniker_path (Moniker_init p) <> "" ->
  startswith scheme (Moniker_path (Moniker_init p)) = false ->
  strip "/" s <> "" ->
  contains "/" (strip "/" s) = false ->
  child_parent_path p s = Some (Moniker_path (Moniker_init p)).
Proof.
  destruct (Moniker_init_stripped p) as [y Hy].
  unfold child_parent_path, child.
  change (_path (Moniker_init p)) with (Moniker_path (Moniker_init p)).
  rewrite Hy. intros Hne Hns Hs Hone.
  assert (Hstrip : strip "/" (strip "/" y) = strip "/" y)
    by apply strip_by_idem.
  assert (Hchild : Moniker_init (strip "/" y ++ "/" ++ strip "/" s)
                   = {| _path := strip "/" y ++ "/" ++ strip "/" s |}).
  { apply Moniker_init_id; [now apply no_scheme_after_child |].
    unfold strip at 1, strip_by.
    replace (strip "/" y ++ "/" ++ strip "/" s)
      with ((strip "/" y ++ "/") ++ strip "/" s)
      by now rewrite append_assoc.
    rewrite rstrip_by_app; [| exact Hs | apply strip_by_rstrip].
    destruct (strip "/" y) as [|c t] eqn:Ey; [now destruct Hne |].
    unfold strip, strip_by in Ey. apply lstrip_by_head in Ey.
    change ((String c t ++ "/") ++ strip "/" s)
      with (String c ((t ++ "/") ++ strip "/" s)).
    cbn [lstrip_by]. now rewrite Ey. }
  rewrite Hchild. unfold parent. cbn [_path].
  rewrite (contains_app "/" (strip "/" y) (strip "/" s)). cbn [negb].
  change (strip "/" y ++ "/" ++ strip "/" s)
    with (strip "/" y ++ String "/" (strip "/" s)).
  rewrite split_app, (split_single _ _ Hone), removelast_last, join_split.
  rewrite (Moniker_init_id _ Hns Hstrip). reflexivity.
Qed.

Lemma child_parent_roundtrip_witness :
  child_parent_path "moniker://test/data" "/sub/" = Some "test/data".
Proof.
  apply (child_parent_roundtrip "moniker://test/data" "/sub/");
    vm_compute; congruence.
Defined.

(** C9 as stated fails: a subpath of two segments, a subpath made of
    separators only, the root, and a path whose normalized form still
    begins with the scheme. *)
Lemma child_parent_counterexample :
  ("b/c" <> ""
   /\ child_parent_path "a" "b/c" = Some "a/b"
   /\ Moniker_path (Moniker_init "a") = "a")
  /\ ("/" <> "" /\ child_parent_path "a" "/" = None)
  /\ ("x" <> "" /\ child_parent_path "" "x" = None)
  /\ ("x" <> ""
      /\ child_parent_path "moniker://moniker://a" "x" = Some "a"
      /\ Moniker_path (Moniker_init "moniker://moniker://a") = "moniker://a").
Proof. repeat split; try discriminate; vm_compute; reflexivity. Qed.

(** The normalizations checked by the repository's tests. *)
Example moniker_normalization :
  Moniker_path (Moniker_init "test/data") = "test/data"
  /\ Moniker_path (Moniker_init "moniker://test/data") = "test/data"
  /\ Moniker_path (Moniker_init "/test/data/") = "test/data"
  /\ option_map Moniker_path (parent (Moniker_init "test/data/subpath"))
     = Some "test/data"
  /\ parent (Moniker_init "test") = None.
Proof. repeat split; vm_compute; reflexivity. Qed.

End MonikerFacts.

(** ** The circuit breaker *)

Section BreakerFacts.
Import Exn Resilience.

Lemma failures_snoc ts t cb :
  failures (ts ++ [t]) cb = on_failure t (failures ts cb).
Proof. unfold failures. now rewrite fold_left_app. Qed.

Lemma on_failure_fields now cb :
  failure_threshold (on_failure now cb) = failure_threshold cb
  /\ recovery_timeout (on_failure now cb) = recovery_timeout cb
  /\ success_threshold (on_failure now cb) = success_threshold cb
  /\ _failure_count (on_failure now cb) = (_failure_count cb + 1)%Z.
Proof.
  unfold on_failure.
  destruct (_state cb), (failure_threshold cb <=? _failure_count cb + 1)%Z;
    cbn; auto.
Qed.

Lemma failures_fields ts cb :
  failure_threshold (failures ts cb) = failure_threshold cb
  /\ recovery_timeout (failures ts cb) = recovery_timeout cb
  /\ success_threshold (failures ts cb) = success_threshold cb
  /\ _failure_count (failures ts cb)
     = (_failure_count cb + Z.of_nat (length ts))%Z.
Proof.
  induction ts as [|t ts IH] using rev_ind.
  - cbn. repeat split; lia.
  - rewrite failures_snoc, length_app. cbn [length].
    destruct IH as (I1 & I2 & I3 & I4).
    destruct (on_failure_fields t (failures ts cb)) as (F1 & F2 & F3 & F4).
    rewrite F1, F2, F3, F4, I1, I2, I3, I4. repeat split; lia.
Qed.

(** Below the threshold a closed breaker stays closed. *)
Lemma failures_stay_closed ts cb :
  _state cb = CLOSED ->
  (_failure_count cb + Z.of_nat (length ts) < failure_threshold cb)%Z ->
  _state (failures ts cb) = CLOSED.
Proof.
  induction ts as [|t ts IH] using rev_ind; intros Hc Hlt; [exact Hc |].
  rewrite length_app in Hlt. cbn [length] in Hlt.
  rewrite failures_snoc.
  destruct (failures_fields ts cb) as (F1 & _ & _ & F4).
  unfold on_failure. rewrite IH by (auto; lia). rewrite F1, F4.
  destruct (Z.leb_spec (failure_threshold cb)
              (_failure_count cb + Z.of_nat (length ts) + 1)); [lia |].
  reflexivity.
Qed.

(** The failure that reaches the threshold opens the breaker and stamps
    the opening time, whatever the state before it. *)
Lemma failures_open ts t cb :
  (failure_threshold cb
   <= _failure_count cb + Z.of_nat (length (ts ++ [t])))%Z ->
  _state (failures (ts ++ [t]) cb) = OPEN
  /\ _opened_at (failures (ts ++ [t]) cb) = t.
Proof.
  rewrite length_app. cbn [length]. intros Hle.
  rewrite failures_snoc.
  destruct (failures_fields ts cb) as (F1 & _ & _ & F4).
  unfold on_failure. rewrite F1, F4.
  destruct (Z.leb_spec (failure_threshold cb)
              (_failure_count cb + Z.of_nat (length ts) + 1)); [| lia].
  destruct (_state (failures ts cb)); cbn; auto.
Qed.

Lemma before_request_open_early now now' cb :
  _state cb = OPEN ->
  (now - _opened_at cb < recovery_timeout cb)%Q ->
  before_request now now' cb
  = (Raise (BreakerOpen (recovery_timeout cb - (now' - _opened_at cb))), cb).
Proof.
  intros Ho Hlt. unfold before_request. rewrite Ho.
  destruct (Qle_bool (recovery_timeout cb) (now - _opened_at cb)) eqn:E;
    [| reflexivity].
  apply Qle_bool_iff in E. lra.
Qed.

Lemma before_request_open_late now now' cb :
  _state cb = OPEN ->
  (recovery_timeout cb <= now - _opened_at cb)%Q ->
  exists cb', before_request now now' cb = (Ok tt, cb')
              /\ _state cb' = HALF_OPEN /\ _success_count cb' = 0%Z.
Proof.
  intros Ho Hle. unfold before_request. rewrite Ho.
  apply Qle_bool_iff in Hle. rewrite Hle. eexists. repeat split.
Qed.

(** C2. From the Closed state, [failure_threshold] consecutive failures
    leave the breaker Open, stamped with the time of the last one; every
    [before_request] made before [recovery_timeout] has elapsed since then
    fails fast with the remaining cool-down and leaves the breaker as it
    is, so the next call meets the same state; the first [before_request]
    at or after [recovery_timeout] passes and moves the breaker to
    HalfOpen. *)
Theorem breaker_opens_and_recovers (cb : ClientCircuitBreaker)
        (times : list Q) :
  _state cb = CLOSED ->
  (0 <= _failure_count cb)%Z ->
  times <> [] ->
  Z.of_nat (length times) = failure_threshold cb ->
  _state (failures times cb) = OPEN
  /\ _opened_at (failures times cb) = List.last times 0%Q
  /\ (forall now now',
        (now - List.last times 0%Q < recovery_timeout cb)%Q ->
        before_request now now' (failures times cb)
        = (Raise (BreakerOpen
                    (recovery_timeout cb - (now' - List.last times 0%Q))),
           failures times cb))
  /\ (forall now now',
        (recovery_timeout cb <= now - List.last times 0%Q)%Q ->
        exists cb', before_request now now' (failures times cb) = (Ok tt, cb')
                    /\ _state cb' = HALF_OPEN).
Proof.
  intros Hc Hpos Hne Hlen.
  destruct (exists_last Hne) as (ts & t & ->).
  rewrite List.last_last.
  destruct (failures_open ts t cb) as [Ho Ht]; [lia |].
  destruct (failures_fields (ts ++ [t]) cb) as (_ & F2 & _ & _).
  repeat split; auto.
  - intros now now' Hlt.
    rewrite before_request_open_early; rewrite ?Ht, ?F2; auto.
  - intros now now' Hle.
    destruct (before_request_open_late now now' (failures (ts ++ [t]) cb))
      as (cb' & E & Hs & _); rewrite ?Ht, ?F2; eauto.
Qed.

Lemma breaker_opens_and_recovers_witness :
  _state (failures [1; 2; 3; 4; 5]%Q default_breaker) = OPEN.
Proof.
  eapply proj1.
  apply (breaker_opens_and_recovers default_breaker [1; 2; 3; 4; 5]%Q);
    [reflexivity | vm_compute; discriminate | discriminate | reflexivity].
Defined.

(** C10. Whenever a success moves the breaker from HalfOpen to Closed its
    failure count is zero again: fewer than [failure_threshold] failures
    in a row then leave it Closed, and it takes [failure_threshold] of
    them to open it. *)
Theorem recovery_resets_failure_count (cb : ClientCircuitBreaker) :
  _state cb = HALF_OPEN ->
  _state (on_success cb) = CLOSED ->
  _failure_count (on_success cb) = 0%Z
  /\ (forall times,
        (Z.of_nat (length times) < failure_threshold cb)%Z ->
        _state (failures times (on_success cb)) = CLOSED)
  /\ (forall times,
        times <> [] ->
        Z.of_nat (length times) = failure_threshold cb ->
        _state (failures times (on_success cb)) = OPEN).
Proof.
  intros Hh Hc.
  assert (H0 : _failure_count (on_success cb) = 0%Z
               /\ failure_threshold (on_success cb) = failure_threshold cb).
  { unfold on_success in *. rewrite Hh in *.
    destruct (success_threshold cb <=? _success_count cb + 1)%Z;
      [cbn; auto | discriminate]. }
  destruct H0 as [H0 Hft]. repeat split; [exact H0 | |].
  - intros times Hlt. apply failures_stay_closed; [exact Hc |].
    rewrite H0, Hft. lia.
  - intros times Hne Hlen.
    destruct (exists_last Hne) as (ts & t & ->).
    apply failures_open. rewrite H0, Hft. lia.
Qed.

Lemma recovery_resets_failure_count_witness :
  _failure_count
    (on_success
       (on_success
          (snd (before_request 40 40
                  (failures [1; 2; 3; 4; 5]%Q default_breaker))))) = 0%Z.
Proof.
  eapply proj1.
  apply (recovery_resets_failure_count
           (on_success
              (snd (before_request 40 40
                      (failures [1; 2; 3; 4; 5]%Q default_breaker)))));
    reflexivity.
Defined.

End BreakerFacts.

(** ** The retry engine *)

Section RetryFacts.
Import Exn Resilience.
Context {St T : Type}.
Variable random : St -> Q * St.
Variable sleep : Q -> St -> St.
Variable func : St -> Result T * St.
Variable config : RetryConfig.

Lemma retryable_not_exhausted e :
  is_retryable config e = true -> forall msg last, e <> RetryExhausted msg last.
Proof. intros H msg last ->. vm_compute in H. discriminate. Qed.

(** The attempts [k, k+1, ..., max_retries] all fail; the last one
    re-raises what the work raised. *)
Lemma retry_loop_all_fail (m k : nat) last st :
  always_retryable func config ->
  Z.of_nat (k + m) = max_retries config ->
  exists e st',
    retry_loop random sleep func config (seq k (S m)) last st = (Raise e, st')
    /\ is_retryable config e = true.
Proof.
  intros Hall. revert k last st.
  induction m as [|m IH]; intros k last st Hk;
    destruct (Hall st) as (e & st1 & Hf & Hr).
  - exists e, st1. cbn [seq retry_loop]. rewrite Hf, Hr.
    replace (Z.of_nat k =? max_retries config)%Z with true
      by (symmetry; apply Z.eqb_eq; lia).
    now split.
  - change (seq k (S (S m))) with (k :: seq (S k) (S m)).
    cbn [retry_loop]. rewrite Hf, Hr.
    replace (Z.of_nat k =? max_retries config)%Z with false
      by (symmetry; apply Z.eqb_neq; lia).
    cbn [negb orb]. destruct (random st1) as [r st2].
    apply IH. lia.
Qed.

(** C4, on the code. When every invocation of the work fails with a
    retryable error, [retry_with_backoff] ends by raising the error of the
    work itself: a retryable error, hence never [RetryExhausted]. *)
Theorem retry_reraises_underlying_error (st : St) :
  always_retryable func config ->
  (0 <= max_retries config)%Z ->
  exists e st',
    retry_with_backoff random sleep func config st = (Raise e, st')
    /\ is_retryable config e = true
    /\ forall msg last, e <> RetryExhausted msg last.
Proof.
  intros Hall Hpos. unfold retry_with_backoff.
  replace (Z.to_nat (max_retries config + 1))
    with (S (Z.to_nat (max_retries config))) by lia.
  destruct (retry_loop_all_fail (Z.to_nat (max_retries config)) 0 None st
              Hall) as (e & st' & E & Hr); [lia |].
  exists e, st'. repeat split; auto using retryable_not_exhausted.
Qed.

(** [RetryExhausted] is only reached when the loop has no iteration. *)
Lemma retry_exhausted_without_attempt (st : St) :
  (max_retries config < 0)%Z ->
  retry_with_backoff random sleep func config st
  = (Raise (RetryExhausted
              ("All " ++ PyStr.str_of_Z (max_retries config)
                      ++ " retries exhausted") None), st).
Proof.
  intros Hneg. unfold retry_with_backoff.
  replace (Z.to_nat (max_retries config + 1)) with O by lia. reflexivity.
Qed.

End RetryFacts.

Lemma retry_reraises_underlying_error_witness :
  exists e st',
    Resilience.retry_with_backoff (fun n => (0%Q, n)) (fun _ n => n) Resilience.timing_out
      Resilience.default_RetryConfig O = (Exn.Raise e, st')
    /\ Resilience.is_retryable Resilience.default_RetryConfig e = true
    /\ forall msg last, e <> Exn.RetryExhausted msg last.
Proof.
  apply (retry_reraises_underlying_error (fun n => (0%Q, n)) (fun _ n => n)
           Resilience.timing_out Resilience.default_RetryConfig O).
  - intros n. exists (Exn.OtherError "ConnectTimeout" "timed out"),
      (S n). split; reflexivity.
  - vm_compute. discriminate.
Defined.

(** With the default configuration the work runs four times and the
    caller receives its last error. *)
Lemma retry_default_run :
  Resilience.retry_with_backoff (fun n => (0%Q, n)) (fun _ n => n) Resilience.timing_out
    Resilience.default_RetryConfig O
  = (Exn.Raise (Exn.OtherError "ConnectTimeout" "timed out"), 4%nat).
Proof. vm_compute. reflexivity. Qed.

(** ** Counting the invocations of the retry engine *)

Section RetryCounting.
Import Exn Resilience.
Context {St T : Type}.
Variable random : St -> Q * St.
Variable sleep : Q -> St -> St.
Variable func : St -> Result T * St.
Variable config : RetryConfig.
Variable count : St -> nat.

Lemma retry_loop_count attempts last st :
  (forall s, count (snd (func s)) = S (count s)) ->
  (forall s, count (snd (random s)) = count s) ->
  (forall d s, count (sleep d s) = count s) ->
  (count st
   <= count (snd (retry_loop random sleep func config attempts last st))
   <= count st + length attempts)%nat
  /\ (attempts <> [] ->
      (count st + 1
       <= count (snd (retry_loop random sleep func config attempts last
                                 st)))%nat).
Proof.
  intros Hfunc Hrandom Hsleep. revert last st.
  induction attempts as [|attempt rest IH]; intros last st.
  - cbn. split; [lia | congruence].
  - cbn [retry_loop length]. specialize (Hfunc st).
    destruct (func st) as [[v|e] st1]; cbn [snd] in *;
      [split; intros; lia |].
    destruct (negb (is_retryable config e)
              || (Z.of_nat attempt =? max_retries config)%Z);
      cbn [snd]; [split; intros; lia |].
    specialize (Hrandom st1). destruct (random st1) as [r st2].
    cbn [snd] in Hrandom.
    destruct (IH (Some e) (sleep (backoff_delay config attempt r) st2))
      as [IH1 _].
    rewrite Hsleep, Hrandom in IH1. split; intros; lia.
Qed.

End RetryCounting.

(** ** The resolution cache *)

Section CacheFacts.
Import Exn PyVal Resilience Client.

(** An attempt that is not retried is the whole run of the engine. *)
Lemma retry_first_attempt {St T : Type} (random : St -> Q * St)
      (sleep : Q -> St -> St) (func : St -> Result T * St)
      (config : RetryConfig) (st : St) :
  (0 <= max_retries config)%Z ->
  match fst (func st) with
  | Ok _ => True
  | Raise e => is_retryable config e = false
  end ->
  retry_with_backoff random sleep func config st = func st.
Proof.
  intros Hpos Hfin. unfold retry_with_backoff.
  replace (Z.to_nat (max_retries config + 1))
    with (S (Z.to_nat (max_retries config))) by lia.
  cbn [seq retry_loop].
  destruct (func st) as [[v|e] st1]; [reflexivity |].
  cbn in Hfin. now rewrite Hfin.
Qed.

Lemma cache_hit_off self w m :
  ~ (0 < cache_ttl (config self))%Q -> cache_hit self w m = None.
Proof.
  intros H. unfold cache_hit.
  destruct (Qlt_le_dec 0 (cache_ttl (config self))); [contradiction | easy].
Qed.

Lemma cache_write_off self w k r :
  ~ (0 < cache_ttl (config self))%Q -> cache_write self w k r = self.
Proof.
  intros H. unfold cache_write.
  destruct (Qlt_le_dec 0 (cache_ttl (config self))); [contradiction | easy].
Qed.

Lemma resolve_gets_app cfg p t1 t2 :
  resolve_gets cfg p (t1 ++ t2)
  = (resolve_gets cfg p t1 + resolve_gets cfg p t2)%nat.
Proof. unfold resolve_gets. now rewrite List.filter_app, length_app. Qed.

(** [_do_resolve] sends exactly the GET of its path. *)
Lemma do_resolve_trace cfg p w :
  trace (snd (_do_resolve cfg p w))
  = trace w ++ [Http {| meth := GET;
                        url := (service_url cfg ++ "/resolve/" ++ p)%string;
                        payload := NoBody |}].
Proof.
  unfold _do_resolve, http. cbn [fst snd].
  destruct (outcome _) as [response|e]; [| reflexivity].
  destruct (status_code response =? 404)%Z; [reflexivity |].
  destruct (negb (status_code response =? 200)%Z); reflexivity.
Qed.

(** The deprecation block sends nothing. *)
Lemma emit_deprecation_gets cfg r w cfg' p :
  resolve_gets cfg' p (trace (snd (emit_deprecation cfg r w)))
  = resolve_gets cfg' p (trace w).
Proof.
  unfold emit_deprecation.
  destruct (deprecation_enabled cfg && is_deprecated r
            && warn_on_deprecated cfg); [| reflexivity].
  destruct (deprecation_callback cfg) as [cb|].
  - destruct (cb _ _ _); cbn [snd emit trace];
      rewrite !resolve_gets_app; cbn; lia.
  - cbn [snd emit trace]. rewrite !resolve_gets_app. cbn. lia.
Qed.

(** What [resolve_try] leaves behind when the cache is off: the cache as
    it was, and the GETs of the retry engine. *)
Lemma resolve_try_off m p self w :
  ~ (0 < cache_ttl (config self))%Q ->
  _cache (snd (fst (resolve_try m p self w))) = _cache self
  /\ forall cfg' p',
       resolve_gets cfg' p' (trace (snd (resolve_try m p self w)))
       = resolve_gets cfg' p'
           (trace (snd (retry_with_backoff random sleep
                          (_do_resolve (config self) p)
                          (_retry_config self) w))).
Proof.
  intros Hoff. unfold resolve_try.
  destruct (retry_with_backoff _ _ _ _ w) as [[data|e] w1];
    [| now split].
  destruct (as_binding data) as [resolved|e]; [| now split].
  pose proof (emit_deprecation_gets (config self) resolved w1) as Hg.
  destruct (emit_deprecation (config self) resolved w1) as [[[]|e] w2];
    cbn [fst snd] in *; [| now split].
  rewrite cache_write_off by exact Hoff. now split.
Qed.

Lemma resolve_gets_self cfg p (t : list Event) :
  resolve_gets cfg p
    (t ++ [Http {| meth := GET;
                   url := (service_url cfg ++ "/resolve/" ++ p)%string;
                   payload := NoBody |}])
  = S (resolve_gets cfg p t).
Proof.
  rewrite resolve_gets_app. unfold resolve_gets at 2.
  cbn [List.filter is_resolve_get meth url]. rewrite String.eqb_refl.
  cbn. lia.
Qed.

Lemma resolve_cached_again m self w r self1 w1 w2 :
  (0 < cache_ttl (config self))%Q ->
  cache_hit self w m = None ->
  _resolve m self w = (Ok r, self1, w1) ->
  (wall w2 - wall w1 < cache_ttl (config self))%Q ->
  _resolve m self1 w2 = (Ok r, self1, w2).
Proof.
  intros Hon Hmiss Hres Hin. unfold _resolve in Hres. rewrite Hmiss in Hres.
  destruct (before_request _ _ _) as [[[]|e] cb]; [| discriminate].
  unfold resolve_try in Hres.
  destruct (retry_with_backoff _ _ _ _ w) as [[data|e] w0];
    [| destruct (is_not_found e); discriminate].
  destruct (as_binding data) as [resolved|e];
    [| destruct (is_not_found e); discriminate].
  destruct (emit_deprecation _ resolved w0) as [[[]|e] w3];
    [| destruct (is_not_found e); discriminate].
  injection Hres as -> <- <-.
  unfold _resolve, cache_hit, cache_write. cbn [config set_breaker].
  destruct (Qlt_le_dec 0 (cache_ttl (config self))) as [_|Hle]; [| lra].
  cbn [config _cache set_breaker set_cache].
  destruct (Qlt_le_dec 0 (cache_ttl (config self))) as [_|Hle]; [| lra].
  rewrite lookup_insert_eq.
  destruct (Qlt_le_dec (wall w2 - wall w3) (cache_ttl (config self)));
    [reflexivity | lra].
Qed.

Lemma resolve_uncached m self w :
  (cache_ttl (config self) == 0)%Q ->
  cache_hit self w m = None
  /\ _cache (snd (fst (_resolve m self w))) = _cache self.
Proof.
  intros Hz. assert (Hoff : ~ (0 < cache_ttl (config self))%Q) by lra.
  split; [now apply cache_hit_off |].
  unfold _resolve. rewrite cache_hit_off by exact Hoff.
  destruct (before_request _ _ _) as [[[]|e] cb]; [| reflexivity].
  destruct (resolve_try_off m (PyStr.replace scheme "" m)
              (set_breaker self cb) w Hoff) as [Hc _].
  destruct (resolve_try _ _ _ w) as [[[r|e] self1] w1];
    cbn [fst snd] in *; [exact Hc |].
  destruct (is_not_found e); exact Hc.
Qed.

Lemma resolve_uncached_one_get m self w :
  (cache_ttl (config self) == 0)%Q ->
  (0 <= max_retries (_retry_config self))%Z ->
  fst (before_request (mono w) (mono w) (_circuit_breaker self)) = Ok tt ->
  first_attempt_final m self w ->
  resolve_gets (config self) (PyStr.replace scheme "" m)
               (trace (snd (_resolve m self w)))
  = S (resolve_gets (config self) (PyStr.replace scheme "" m) (trace w)).
Proof.
  intros Hz Hpos Hpass Hfin.
  assert (Hoff : ~ (0 < cache_ttl (config self))%Q) by lra.
  unfold _resolve. rewrite cache_hit_off by exact Hoff.
  destruct (before_request _ _ _) as [[[]|e] cb]; [| discriminate].
  destruct (resolve_try_off m (PyStr.replace scheme "" m)
              (set_breaker self cb) w Hoff) as [_ Hg].
  specialize (Hg (config self) (PyStr.replace scheme "" m)).
  cbn [config _retry_config set_breaker] in Hg.
  rewrite retry_first_attempt in Hg by assumption.
  rewrite do_resolve_trace, resolve_gets_self in Hg.
  destruct (resolve_try _ _ _ w) as [[[r|e] self1] w1];
    cbn [fst snd] in *; [exact Hg |].
  destruct (is_not_found e); exact Hg.
Qed.

(** Each attempt of the retry engine is one GET of the path. *)
Lemma retry_resolve_gets cfg p rc w :
  (0 <= max_retries rc)%Z ->
  (S (resolve_gets cfg p (trace w))
   <= resolve_gets cfg p
        (trace (snd (retry_with_backoff random sleep (_do_resolve cfg p)
                       rc w)))
   <= resolve_gets cfg p (trace w) + Z.to_nat (max_retries rc + 1))%nat.
Proof.
  intros Hpos. unfold retry_with_backoff.
  destruct (retry_loop_count random sleep (_do_resolve cfg p) rc
              (fun s => resolve_gets cfg p (trace s))
              (seq 0 (Z.to_nat (max_retries rc + 1))) None w)
    as [[_ Hup] Hlow].
  - intros s. rewrite do_resolve_trace. apply resolve_gets_self.
  - intros s. unfold random. now destruct (randoms s).
  - intros d s. unfold sleep. cbn [emit trace advance].
    rewrite resolve_gets_app. cbn. lia.
  - rewrite length_seq in Hup. split; [| exact Hup].
    assert (Hne : seq 0 (Z.to_nat (max_retries rc + 1)) <> []).
    { replace (Z.to_nat (max_retries rc + 1))
        with (S (Z.to_nat (max_retries rc))) by lia.
      discriminate. }
    specialize (Hlow Hne). lia.
Qed.

Lemma resolve_uncached_gets m self w :
  (cache_ttl (config self) == 0)%Q ->
  (0 <= max_retries (_retry_config self))%Z ->
  fst (before_request (mono w) (mono w) (_circuit_breaker self)) = Ok tt ->
  (S (resolve_gets (config self) (PyStr.replace scheme "" m) (trace w))
   <= resolve_gets (config self) (PyStr.replace scheme "" m)
                   (trace (snd (_resolve m self w)))
   <= resolve_gets (config self) (PyStr.replace scheme "" m) (trace w)
      + Z.to_nat (max_retries (_retry_config self) + 1))%nat.
Proof.
  intros Hz Hpos Hpass.
  assert (Hoff : ~ (0 < cache_ttl (config self))%Q) by lra.
  unfold _resolve. rewrite cache_hit_off by exact Hoff.
  destruct (before_request _ _ _) as [[[]|e] cb]; [| discriminate].
  destruct (resolve_try_off m (PyStr.replace scheme "" m)
              (set_breaker self cb) w Hoff) as [_ Hg].
  specialize (Hg (config self) (PyStr.replace scheme "" m)).
  cbn [config _retry_config set_breaker] in Hg.
  pose proof (retry_resolve_gets (config self) (PyStr.replace scheme "" m)
                (_retry_config self) w Hpos) as Hb.
  rewrite <- Hg in Hb.
  destruct (resolve_try _ _ _ w) as [[[r|e] self1] w1];
    cbn [fst snd] in *; [exact Hb |].
  destruct (is_not_found e); exact Hb.
Qed.

Lemma resolve_rejected m self w e :
  cache_hit self w m = None ->
  fst (before_request (mono w) (mono w) (_circuit_breaker self)) = Raise e ->
  fst (fst (_resolve m self w)) = Raise e
  /\ snd (_resolve m self w) = w.
Proof.
  intros Hmiss Hrej. unfold _resolve. rewrite Hmiss.
  destruct (before_request _ _ _) as [[[]|e'] cb]; [discriminate |].
  cbn in *. now injection Hrej as ->.
Qed.

(** C1 (amended). With [cache_ttl > 0], after a resolve that was answered
    by the resolver and succeeded, a resolve of the same moniker made less
    than [cache_ttl] seconds of wall-clock time after the cache write
    returns the cached binding and leaves the world as it is: no request
    is sent. With [cache_ttl = 0] a resolve neither reads nor writes the
    cache; when the breaker rejects it, it sends nothing; when the breaker
    lets it through, it sends at least one and at most [max_retries + 1]
    times [GET /resolve/{path}], and exactly one when its first attempt is
    not retried. *)
Theorem resolution_caching (m : string) (self : MonikerClient) (w : World) :
  (forall r self1 w1 w2,
      (0 < cache_ttl (config self))%Q ->
      cache_hit self w m = None ->
      _resolve m self w = (Ok r, self1, w1) ->
      (wall w2 - wall w1 < cache_ttl (config self))%Q ->
      _resolve m self1 w2 = (Ok r, self1, w2))
  /\ ((cache_ttl (config self) == 0)%Q ->
      (cache_hit self w m = None
       /\ _cache (snd (fst (_resolve m self w))) = _cache self)
      /\ ((0 <= max_retries (_retry_config self))%Z ->
          fst (before_request (mono w) (mono w) (_circuit_breaker self))
          = Ok tt ->
          first_attempt_final m self w ->
          resolve_gets (config self) (PyStr.replace scheme "" m)
                       (trace (snd (_resolve m self w)))
          = S (resolve_gets (config self) (PyStr.replace scheme "" m)
                            (trace w)))
      /\ (forall e,
            fst (before_request (mono w) (mono w) (_circuit_breaker self))
            = Raise e ->
            fst (fst (_resolve m self w)) = Raise e
            /\ snd (_resolve m self w) = w)
      /\ ((0 <= max_retries (_retry_config self))%Z ->
          fst (before_request (mono w) (mono w) (_circuit_breaker self))
          = Ok tt ->
          (S (resolve_gets (config self) (PyStr.replace scheme "" m)
                           (trace w))
           <= resolve_gets (config self) (PyStr.replace scheme "" m)
                           (trace (snd (_resolve m self w)))
           <= resolve_gets (config self) (PyStr.replace scheme "" m)
                           (trace w)
              + Z.to_nat (max_retries (_retry_config self) + 1))%nat)).
Proof.
  split; [intros; eapply resolve_cached_again; eauto |].
  intros Hz. split; [now apply resolve_uncached |].
  split; [intros; now apply resolve_uncached_one_get |].
  split; [| intros; now apply resolve_uncached_gets].
  intros e He. apply resolve_rejected; [| exact He].
  apply cache_hit_off. lra.
Qed.

Lemma resolution_caching_witness :
  (let self := new_client (Scenario.cfg 60 false) in
   let w := Scenario.world
              (Scenario.answer 200 "" (Ok (Scenario.body Scenario.binding))) in
   let self1 := snd (fst (_resolve "moniker://a/b" self w)) in
   let w1 := snd (_resolve "moniker://a/b" self w) in
   _resolve "moniker://a/b" self1 (advance 59 w1)
   = (Ok Scenario.binding, self1, advance 59 w1))
  /\ (let self := new_client (Scenario.cfg 0 false) in
      let w := Scenario.world (Scenario.answer 500 "boom" Scenario.no_json) in
      resolve_gets (config self) "a/b"
                   (trace (snd (_resolve "moniker://a/b" self w))) = 1%nat)
  /\ (let self := new_client (Scenario.cfg 0 false) in
      let w := Scenario.world Scenario.timeout in
      (1 <= resolve_gets (config self) "a/b"
                         (trace (snd (_resolve "moniker://a/b" self w)))
       <= 4)%nat).
Proof.
  split; [| split].
  - intros self w self1 w1.
    apply (proj1 (resolution_caching "moniker://a/b" self w)
                 Scenario.binding self1 w1 (advance 59 w1)).
    + reflexivity.
    + vm_compute. reflexivity.
    + vm_compute. reflexivity.
    + vm_compute. reflexivity.
  - intros self w.
    apply (proj1 (proj2 (proj2 (resolution_caching "moniker://a/b" self w)
                           ltac:(reflexivity)))).
    + vm_compute. discriminate.
    + reflexivity.
    + vm_compute. reflexivity.
  - intros self w.
    apply (proj2 (proj2 (proj2 (proj2 (resolution_caching "moniker://a/b"
                                         self w)
                                  ltac:(reflexivity))))).
    + vm_compute. discriminate.
    + reflexivity.
Defined.

(** C1 as stated fails for [cache_ttl = 0]: a resolve whose attempts time
    out sends four GETs, and a resolve rejected by the open breaker sends
    none. *)
Lemma resolution_caching_counterexample :
  (cache_ttl (Scenario.cfg 0 false) == 0)%Q
  /\ resolve_gets (Scenario.cfg 0 false) "a/b"
       (trace (snd (resolve "a/b" (new_client (Scenario.cfg 0 false))
                            (Scenario.world Scenario.timeout)))) = 4%nat
  /\ resolve_gets (Scenario.cfg 0 false) "a/b"
       (trace (snd (resolve "a/b" (Scenario.tripped (Scenario.cfg 0 false))
                            (Scenario.world Scenario.timeout)))) = 0%nat.
Proof. repeat split; vm_compute; reflexivity. Qed.

End CacheFacts.

(** ** Breaker accounting in the client *)

Section AccountingFacts.
Import Exn PyVal Resilience Client.

Lemma resolve_try_raise m p self w e self1 w1 :
  resolve_try m p self w = (Raise e, self1, w1) -> self1 = self.
Proof.
  unfold resolve_try.
  destruct (retry_with_backoff _ _ _ _ w) as [[data|e0] w0];
    [| now intros [= _ <- _]].
  destruct (as_binding data) as [resolved|e0]; [| now intros [= _ <- _]].
  destruct (emit_deprecation _ resolved w0) as [[[]|e0] w2];
    [discriminate | now intros [= _ <- _]].
Qed.

(** A 404 answer to a single resolve raises [NotFoundError] and leaves
    the breaker as [before_request] left it. *)
Lemma resolve_404_bypasses_breaker m self w cb resp :
  cache_hit self w m = None ->
  before_request (mono w) (mono w) (_circuit_breaker self) = (Ok tt, cb) ->
  (0 <= max_retries (_retry_config self))%Z ->
  outcome (server w (sent w)
             {| meth := GET;
                url := (service_url (config self) ++ "/resolve/"
                        ++ PyStr.replace scheme "" m)%string;
                payload := NoBody |}) = Answer resp ->
  status_code resp = 404%Z ->
  exists w1,
    _resolve m self w
    = (Raise (NotFoundError ("No source binding for: "
                             ++ PyStr.replace scheme "" m)%string),
       set_breaker self cb, w1).
Proof.
  intros Hmiss Hb Hpos Hout H404. unfold _resolve. rewrite Hmiss, Hb.
  unfold resolve_try. cbn [config _retry_config set_breaker].
  assert (Hdo : exists w1,
             _do_resolve (config self) (PyStr.replace scheme "" m) w
             = (Raise (NotFoundError ("No source binding for: "
                                      ++ PyStr.replace scheme "" m)%string),
                w1)).
  { unfold _do_resolve, http. rewrite Hout, H404. cbn. eauto. }
  destruct Hdo as [w1 Hdo].
  rewrite retry_first_attempt; [| exact Hpos | now rewrite Hdo].
  rewrite Hdo. cbn. eauto.
Qed.

(** Every other exception raised after the breaker check of a single
    resolve is recorded as a failure. *)
Lemma resolve_error_recorded m self w cb e self1 w1 :
  cache_hit self w m = None ->
  before_request (mono w) (mono w) (_circuit_breaker self) = (Ok tt, cb) ->
  _resolve m self w = (Raise e, self1, w1) ->
  is_not_found e = false ->
  _circuit_breaker self1 = on_failure (mono w1) cb.
Proof.
  intros Hmiss Hb Hres Hnf. unfold _resolve in Hres.
  rewrite Hmiss, Hb in Hres.
  destruct (resolve_try _ _ _ w) as [[[r|e0] s0] w0] eqn:Et;
    [discriminate |].
  apply resolve_try_raise in Et. subst s0.
  destruct (is_not_found e0) eqn:E0; injection Hres as -> <- <-;
    [congruence | reflexivity].
Qed.

(** C3, on the code. A 404 answer to the POST of [batch_resolve] is
    raised as the status error of [raise_for_status], not as a not-found
    error, and is recorded by the breaker: the failure count goes up by
    one. *)
Theorem batch_404_counts_as_failure (monikers : list string)
        (self : MonikerClient) (w : World) (cb : ClientCircuitBreaker)
        (resp : Response) :
  snd (batch_cached self w (map normalize monikers) ∅ []) <> [] ->
  before_request (mono w) (mono w) (_circuit_breaker self) = (Ok tt, cb) ->
  outcome (server w (sent w)
             (batch_request (config self)
                (snd (batch_cached self w (map normalize monikers) ∅ []))))
  = Answer resp ->
  status_code resp = 404%Z ->
  exists self1 w1,
    batch_resolve monikers self w = (Raise (HTTPStatusError 404), self1, w1)
    /\ _failure_count (_circuit_breaker self1)
       = (_failure_count cb + 1)%Z.
Proof.
  intros Hne Hb Hout H404. unfold batch_resolve.
  destruct (batch_cached self w (map normalize monikers) ∅ [])
    as [results uncached].
  cbn [snd] in *. destruct uncached as [|u us]; [now destruct Hne |].
  rewrite Hb. unfold batch_try, http. cbn [config set_breaker].
  rewrite Hout. unfold raise_for_status. rewrite H404.
  cbn [Z.leb Z.compare Pos.compare Pos.compare_cont andb].
  do 2 eexists. split; [reflexivity |].
  cbn [_circuit_breaker set_breaker].
  apply on_failure_fields.
Qed.

Lemma batch_404_counts_as_failure_witness :
  exists self1 w1,
    batch_resolve ["a/b"] (new_client (Scenario.cfg 60 true))
      (Scenario.world (Scenario.answer 404 "" Scenario.no_json))
    = (Raise (HTTPStatusError 404), self1, w1)
    /\ _failure_count (_circuit_breaker self1) = (0 + 1)%Z.
Proof.
  apply (batch_404_counts_as_failure ["a/b"]
           (new_client (Scenario.cfg 60 true))
           (Scenario.world (Scenario.answer 404 "" Scenario.no_json))
           default_breaker
           {| status_code := 404; text := ""; json := Scenario.no_json |}).
  - vm_compute. discriminate.
  - reflexivity.
  - reflexivity.
  - reflexivity.
Defined.

(** The same answer to a single resolve: [NotFoundError], and no failure
    recorded. *)
Lemma resolve_404_run :
  let r := resolve "a/b" (new_client (Scenario.cfg 60 true))
             (Scenario.world (Scenario.answer 404 "" Scenario.no_json)) in
  fst (fst r) = Raise (NotFoundError "No source binding for: a/b")
  /\ _failure_count (_circuit_breaker (snd (fst r))) = 0%Z.
Proof. split; vm_compute; reflexivity. Qed.

End AccountingFacts.

(** ** Error classification in read *)

Section ReadFacts.
Import Exn PyVal Resilience Client.

(** C5 (amended). [read] raises [FetchError], wrapping the underlying
    error as cause, for every failure other than [NotFoundError], whether
    it occurs during the resolution step (a non-2xx resolver answer, an
    open breaker, a transport error) or during the adapter fetch;
    [NotFoundError] propagates unwrapped from either step; and [read]
    returns the adapter's data when both steps succeed. *)
Theorem read_error_classification (m : string) (self : MonikerClient)
        (w : World) :
  (forall cause self1 w1,
      _resolve (normalize m) self w = (Raise cause, self1, w1) ->
      fst (fst (read m self w)) = Raise (surfaced (normalize m) cause))
  /\ (forall r self1 w1 cause,
        _resolve (normalize m) self w = (Ok r, self1, w1) ->
        adapter w1 r = Raise cause ->
        fst (fst (read m self w)) = Raise (surfaced (normalize m) cause))
  /\ (forall r self1 w1 data,
        _resolve (normalize m) self w = (Ok r, self1, w1) ->
        adapter w1 r = Ok data ->
        fst (fst (read m self w)) = Ok data).
Proof.
  unfold read, surfaced. repeat split.
  - intros cause self1 w1 ->. now destruct (is_not_found cause).
  - intros r self1 w1 cause -> ->. now destruct (is_not_found cause).
  - intros r self1 w1 data -> ->. reflexivity.
Qed.

Lemma read_error_classification_witness :
  fst (fst (read "a/b" (new_client (Scenario.cfg 60 true))
              (Scenario.world (Scenario.answer 500 "boom" Scenario.no_json))))
  = Raise (FetchError "moniker://a/b"
             (ResolutionError "Resolution failed: boom")).
Proof.
  apply (proj1 (read_error_classification "a/b"
                  (new_client (Scenario.cfg 60 true))
                  (Scenario.world
                     (Scenario.answer 500 "boom" Scenario.no_json)))
               (ResolutionError "Resolution failed: boom")
               (snd (fst (_resolve "moniker://a/b"
                            (new_client (Scenario.cfg 60 true))
                            (Scenario.world
                               (Scenario.answer 500 "boom"
                                                Scenario.no_json)))))
               (snd (_resolve "moniker://a/b"
                       (new_client (Scenario.cfg 60 true))
                       (Scenario.world
                          (Scenario.answer 500 "boom" Scenario.no_json))))).
  vm_compute. reflexivity.
Defined.

(** C5 as stated fails: a 500 answer of the resolver makes the resolution
    step raise [ResolutionError], and the caller of [read] receives a
    [FetchError] wrapping it. *)
Lemma read_error_counterexample :
  let self := new_client (Scenario.cfg 60 true) in
  let w := Scenario.world (Scenario.answer 500 "boom" Scenario.no_json) in
  fst (fst (_resolve "moniker://a/b" self w))
  = Raise (ResolutionError "Resolution failed: boom")
  /\ fst (fst (read "a/b" self w))
     = Raise (FetchError "moniker://a/b"
                (ResolutionError "Resolution failed: boom"))
  /\ fst (fst (read "a/b" self w))
     <> Raise (ResolutionError "Resolution failed: boom").
Proof. repeat split; try (vm_compute; reflexivity). discriminate. Qed.

End ReadFacts.

(** ** Deprecation warnings *)

Section DeprecationFacts.
Import Exn PyVal Resilience Client.

(** Whatever every step of the engine preserves, the engine preserves. *)
Lemma retry_loop_preserves {St T : Type} (R : St -> St -> Prop)
      (random : St -> Q * St) (sleep : Q -> St -> St)
      (func : St -> Result T * St) (config : RetryConfig) :
  (forall s, R s s) ->
  (forall a b c, R a b -> R b c -> R a c) ->
  (forall s, R s (snd (random s))) ->
  (forall d s, R s (sleep d s)) ->
  (forall s, R s (snd (func s))) ->
  forall attempts last st,
    R st (snd (retry_loop random sleep func config attempts last st)).
Proof.
  intros Hrefl Htrans Hrandom Hsleep Hfunc.
  induction attempts as [|attempt rest IH]; intros last st; [apply Hrefl |].
  cbn [retry_loop]. specialize (Hfunc st).
  destruct (func st) as [[v|e] st1]; cbn [snd] in *; [exact Hfunc |].
  destruct (negb (is_retryable config e)
            || (Z.of_nat attempt =? max_retries config)%Z);
    [exact Hfunc |].
  specialize (Hrandom st1). destruct (random st1) as [r st2].
  cbn [snd] in Hrandom.
  eapply Htrans; [exact Hfunc |]. eapply Htrans; [exact Hrandom |].
  eapply Htrans; [apply Hsleep | apply IH].
Qed.

(** The retry engine around [_do_resolve] emits requests and sleeps only. *)
Lemma retry_resolve_silent (f : Event -> bool) cfg p rc w :
  (forall rq, f (Http rq) = false) ->
  (forall d, f (Sleep d) = false) ->
  List.filter f (trace (snd (retry_with_backoff random sleep
                               (_do_resolve cfg p) rc w)))
  = List.filter f (trace w).
Proof.
  intros Hhttp Hsleep. unfold retry_with_backoff.
  apply (retry_loop_preserves
           (fun a b => List.filter f (trace b) = List.filter f (trace a))).
  - reflexivity.
  - intros a b c Hab Hbc. now rewrite Hbc.
  - intros s. unfold random. now destruct (randoms s).
  - intros d s. unfold sleep. cbn [emit advance trace].
    rewrite List.filter_app. cbn [List.filter]. rewrite Hsleep.
    apply app_nil_r.
  - intros s. rewrite do_resolve_trace, List.filter_app.
    cbn [List.filter]. rewrite Hhttp. apply app_nil_r.
Qed.

Lemma emit_deprecation_on cfg r w :
  deprecation_enabled cfg = true ->
  warn_on_deprecated cfg = true ->
  is_deprecated r = true ->
  List.filter is_warn (trace (snd (emit_deprecation cfg r w)))
  = List.filter is_warn (trace w) ++ warnings_for [r]
  /\ List.filter is_callback (trace (snd (emit_deprecation cfg r w)))
     = List.filter is_callback (trace w) ++ callbacks_for cfg [r].
Proof.
  intros He Hw Hd. unfold emit_deprecation, warnings_for, callbacks_for.
  rewrite He, Hw, Hd. cbn [andb List.filter]. rewrite Hd.
  destruct (deprecation_callback cfg) as [cb|].
  - destruct (cb _ _ _); cbn [snd emit trace];
      rewrite !List.filter_app; cbn; rewrite ?app_nil_r; now split.
  - cbn [snd emit trace]. rewrite !List.filter_app. cbn.
    rewrite ?app_nil_r. now split.
Qed.

Lemma emit_deprecation_off cfg r w :
  is_deprecated r = false -> emit_deprecation cfg r w = (Ok tt, w).
Proof.
  intros Hd. unfold emit_deprecation. rewrite Hd.
  now rewrite andb_false_r.
Qed.

Lemma config_cache_write self w k r :
  config (cache_write self w k r) = config self.
Proof.
  unfold cache_write. now destruct (Qlt_le_dec 0 (cache_ttl (config self))).
Qed.

(** The loop over the items of a batch answer warns once per deprecated
    item, in order. *)
Lemma batch_items_warns l :
  forall results self w res self1 w1,
    deprecation_enabled (config self) = true ->
    warn_on_deprecated (config self) = true ->
    batch_items l results self w = (Ok res, self1, w1) ->
    exists items,
      l = map Ok items
      /\ List.filter is_warn (trace w1)
         = List.filter is_warn (trace w) ++ warnings_for items
      /\ List.filter is_callback (trace w1)
         = List.filter is_callback (trace w)
           ++ callbacks_for (config self) items.
Proof.
  induction l as [|[r|e] rest IH]; intros results self w res self1 w1 He Hw.
  - intros [= _ _ <-]. exists []. unfold warnings_for, callbacks_for.
    destruct (deprecation_callback (config self)); cbn;
      now rewrite !app_nil_r.
  - cbn [batch_items].
    destruct (emit_deprecation (config self) r w) as [[[]|e] w0] eqn:Ed;
      [| discriminate].
    intros Hrest. apply IH in Hrest; rewrite ?config_cache_write; auto.
    destruct Hrest as (items & -> & Hwarn & Hcall).
    exists (r :: items). split; [reflexivity |].
    rewrite config_cache_write in Hcall.
    destruct (is_deprecated r) eqn:Hd.
    + destruct (emit_deprecation_on (config self) r w He Hw Hd) as [E1 E2].
      rewrite Ed in E1, E2. cbn [snd] in E1, E2.
      rewrite Hwarn, Hcall, E1, E2, <- !app_assoc.
      unfold warnings_for, callbacks_for. cbn [List.filter]. rewrite Hd.
      destruct (deprecation_callback (config self)); now split.
    + rewrite emit_deprecation_off in Ed by exact Hd.
      injection Ed as <-. rewrite Hwarn, Hcall.
      unfold warnings_for, callbacks_for. cbn [List.filter]. rewrite Hd.
      now split.
  - discriminate.
Qed.

Lemma resolve_fresh_warns m self w r self1 w1 :
  deprecation_enabled (config self) = true ->
  warn_on_deprecated (config self) = true ->
  cache_hit self w m = None ->
  _resolve m self w = (Ok r, self1, w1) ->
  is_deprecated r = true ->
  List.filter is_warn (trace w1)
  = List.filter is_warn (trace w) ++ [Warn (deprecation_msg r)]
  /\ List.filter is_callback (trace w1)
     = List.filter is_callback (trace w) ++ callbacks_for (config self) [r].
Proof.
  intros He Hw Hmiss Hres Hd. unfold _resolve in Hres. rewrite Hmiss in Hres.
  destruct (before_request _ _ _) as [[[]|e] cb]; [| discriminate].
  unfold resolve_try in Hres. cbn [config _retry_config set_breaker] in Hres.
  pose proof (retry_resolve_silent is_warn (config self)
                (PyStr.replace scheme "" m) (_retry_config self) w
                (fun _ => eq_refl) (fun _ => eq_refl)) as Sw.
  pose proof (retry_resolve_silent is_callback (config self)
                (PyStr.replace scheme "" m) (_retry_config self) w
                (fun _ => eq_refl) (fun _ => eq_refl)) as Sc.
  destruct (retry_with_backoff _ _ _ _ w) as [[data|e] w0];
    [| destruct (is_not_found e); discriminate].
  destruct (as_binding data) as [resolved|e];
    [| destruct (is_not_found e); discriminate].
  destruct (emit_deprecation_on (config self) resolved w0 He Hw) as [E1 E2].
  { destruct (emit_deprecation _ resolved w0) as [[[]|e] w2];
      [| destruct (is_not_found e); discriminate].
    now injection Hres as -> _ _. }
  destruct (emit_deprecation _ resolved w0) as [[[]|e] w2];
    [| destruct (is_not_found e); discriminate].
  injection Hres as -> _ <-. cbn [snd] in *.
  rewrite E1, E2, Sw, Sc. unfold warnings_for. cbn [List.filter].
  now rewrite Hd.
Qed.

Lemma resolve_cached_silent m self w r :
  cache_hit self w m = Some r -> _resolve m self w = (Ok r, self, w).
Proof. intros H. unfold _resolve. now rewrite H. Qed.

Lemma batch_resolve_warns monikers self w results self1 w1 :
  deprecation_enabled (config self) = true ->
  warn_on_deprecated (config self) = true ->
  batch_resolve monikers self w = (Ok results, self1, w1) ->
  (snd (batch_cached self w (map normalize monikers) ∅ []) = [] /\ w1 = w)
  \/ exists resp data items,
       outcome (server w (sent w)
                  (batch_request (config self)
                     (snd (batch_cached self w (map normalize monikers)
                                        ∅ []))))
       = Answer resp
       /\ json resp = Ok data
       /\ as_results data = Ok (map Ok items)
       /\ List.filter is_warn (trace w1)
          = List.filter is_warn (trace w) ++ warnings_for items
       /\ List.filter is_callback (trace w1)
          = List.filter is_callback (trace w)
            ++ callbacks_for (config self) items.
Proof.
  intros He Hw. unfold batch_resolve.
  destruct (batch_cached self w (map normalize monikers) ∅ [])
    as [results0 uncached].
  cbn [snd]. destruct uncached as [|u us].
  - intros [= _ _ <-]. now left.
  - destruct (before_request _ _ _) as [[[]|e] cb]; [| discriminate].
    unfold batch_try, http. cbn [config set_breaker].
    destruct (outcome _) as [resp|e] eqn:Eo; [| discriminate].
    destruct (raise_for_status resp); [| discriminate].
    destruct (json resp) as [data|e] eqn:Ej; [| discriminate].
    destruct (as_results data) as [l|e] eqn:Er; [| discriminate].
    destruct (batch_items l _ _ _) as [[[res|e] s1] w2] eqn:Eb;
      [| discriminate].
    intros [= _ _ <-]. right.
    apply batch_items_warns in Eb; [| exact He | exact Hw].
    destruct Eb as (items & -> & Hwarn & Hcall).
    exists resp, data, items. repeat split; auto.
    + rewrite Hwarn. cbn [emit advance trace].
      rewrite List.filter_app. cbn. now rewrite app_nil_r.
    + rewrite Hcall. cbn [emit advance trace config set_breaker].
      rewrite List.filter_app. cbn. now rewrite app_nil_r.
Qed.

(** C6 (amended). With [deprecation_enabled] and [warn_on_deprecated]
    both true: a [resolve] that is answered by the resolver with a
    deprecated binding emits exactly one warning, whose message carries
    the path and, when present, the deprecation message and the successor,
    and invokes the configured callback exactly once with
    [(path, message, successor)]; a [batch_resolve] does so once for each
    deprecated item of the resolver's answer; a [resolve] answered from
    the cache emits nothing, and monikers a [batch_resolve] takes from the
    cache add nothing. *)
Theorem deprecation_warnings (self : MonikerClient) (w : World) :
  deprecation_enabled (config self) = true ->
  warn_on_deprecated (config self) = true ->
  (forall m r self1 w1,
      cache_hit self w m = None ->
      _resolve m self w = (Ok r, self1, w1) ->
      is_deprecated r = true ->
      List.filter is_warn (trace w1)
      = List.filter is_warn (trace w) ++ [Warn (deprecation_msg r)]
      /\ List.filter is_callback (trace w1)
         = List.filter is_callback (trace w)
           ++ callbacks_for (config self) [r])
  /\ (forall m r,
        cache_hit self w m = Some r -> _resolve m self w = (Ok r, self, w))
  /\ (forall monikers results self1 w1,
        batch_resolve monikers self w = (Ok results, self1, w1) ->
        (snd (batch_cached self w (map normalize monikers) ∅ []) = []
         /\ w1 = w)
        \/ exists resp data items,
             outcome (server w (sent w)
                        (batch_request (config self)
                           (snd (batch_cached self w
                                   (map normalize monikers) ∅ []))))
             = Answer resp
             /\ json resp = Ok data
             /\ as_results data = Ok (map Ok items)
             /\ List.filter is_warn (trace w1)
                = List.filter is_warn (trace w) ++ warnings_for items
             /\ List.filter is_callback (trace w1)
                = List.filter is_callback (trace w)
                  ++ callbacks_for (config self) items).
Proof.
  intros He Hw. split; [| split].
  - intros. eapply resolve_fresh_warns; eauto.
  - intros m r. apply resolve_cached_silent.
  - intros. eapply batch_resolve_warns; eauto.
Qed.

Lemma deprecation_warnings_witness :
  let self := new_client (Scenario.cfg 60 true) in
  let w := Scenario.world
             (Scenario.answer 200 ""
                (Ok (Scenario.body Scenario.deprecated_binding))) in
  List.filter is_warn (trace (snd (_resolve "moniker://a/b" self w)))
  = [Warn "Moniker 'a/b' is deprecated. use new.path Successor: new/path"]
  /\ List.filter is_callback (trace (snd (_resolve "moniker://a/b" self w)))
     = [Callback "a/b" (Some "use new.path") (Some "new/path")].
Proof.
  intros self w.
  apply (proj1 (deprecation_warnings self w eq_refl eq_refl)
               "moniker://a/b"%string Scenario.deprecated_binding
               (snd (fst (_resolve "moniker://a/b" self w)))
               (snd (_resolve "moniker://a/b" self w)));
    vm_compute; reflexivity.
Defined.

(** C6 as stated fails: a resolve answered from the cache emits no
    warning and does not invoke the callback, although the binding it
    returns is deprecated and both settings are true; and with the
    feature toggle [deprecation_enabled] off (its default) no warning is
    emitted even for a binding that comes from the resolver. *)
Lemma deprecation_warnings_counterexample :
  (let self := Scenario.warmed (Scenario.cfg 60 true)
                               Scenario.deprecated_binding in
   let w := Scenario.world
              (Scenario.answer 200 ""
                 (Ok (Scenario.body Scenario.deprecated_binding))) in
   fst (fst (resolve "a/b" self w)) = Ok Scenario.deprecated_binding
   /\ is_deprecated Scenario.deprecated_binding = true
   /\ warn_on_deprecated (config self) = true
   /\ warns (trace (snd (resolve "a/b" self w))) = 0%nat
   /\ callbacks (trace (snd (resolve "a/b" self w))) = 0%nat)
  /\ (let self := new_client (Scenario.cfg 60 false) in
      let w := Scenario.world
                 (Scenario.answer 200 ""
                    (Ok (Scenario.body Scenario.deprecated_binding))) in
      fst (fst (resolve "a/b" self w)) = Ok Scenario.deprecated_binding
      /\ warn_on_deprecated (config self) = true
      /\ warns (trace (snd (resolve "a/b" self w))) = 0%nat
      /\ callbacks (trace (snd (resolve "a/b" self w))) = 0%nat).
Proof. repeat split; vm_compute; reflexivity. Qed.

End DeprecationFacts.

(** ** Query rewriting of the Oracle adapter *)

Section OracleFacts.
Import Exn PyVal PyStr Oracle.
Local Open Scope string_scope.

Lemma inject_limit_has_fetch query limit :
  contains "FETCH " (upper (_inject_limit query limit)) = true.
Proof.
  unfold _inject_limit.
  destruct (contains "FETCH " (upper query)) eqn:E; [exact E |].
  rewrite upper_app.
  change (" FETCH FIRST " ++ py_str limit ++ " ROWS ONLY")
    with (" " ++ "FETCH " ++ "FIRST " ++ py_str limit ++ " ROWS ONLY").
  rewrite upper_app, <- append_assoc, upper_app.
  change (upper "FETCH ") with "FETCH ".
  apply contains_app.
Qed.

Lemma inject_limit_idem query limit :
  _inject_limit (_inject_limit query limit) limit = _inject_limit query limit.
Proof.
  unfold _inject_limit at 1. now rewrite inject_limit_has_fetch.
Qed.

Lemma inject_limit_nonempty query limit :
  query <> "" -> _inject_limit query limit <> "".
Proof.
  intros Hne. unfold _inject_limit.
  destruct (contains "FETCH " (upper query)); [exact Hne |].
  destruct (rstrip_ws (rstrip ";" query)); discriminate.
Qed.

(** Neither the temporal pass nor the filter pass acts: only the limit
    pass can. *)
Lemma build_query_limit_only params q :
  q <> "" ->
  truthy (py_or (dict_get params "as_of")
                (dict_get params "moniker_version")) = false
  \/ (is_str (py_or (dict_get params "as_of")
                    (dict_get params "moniker_version")) = true
      /\ find " FROM " (upper q) = None) ->
  _extract_filters params = [] ->
  build_query (Some q) params
  = Ok (Some (if is_none (dict_get params "limit") then q
              else _inject_limit q (dict_get params "limit"))).
Proof.
  intros Hne Has_of Hf. unfold build_query.
  destruct q as [|c q]; [now destruct Hne |].
  destruct Has_of as [Has_of | [Hstr Hfrom]].
  - now rewrite Has_of, Hf.
  - destruct (py_or _ _) as [| | |a| | |]; try discriminate Hstr.
    unfold _inject_flashback. rewrite Hfrom, Hf.
    now destruct (truthy (PStr a)).
Qed.

(** A temporal value that [build_query] accepts is a string. *)
Lemma build_query_temporal_str params q q1 :
  build_query (Some q) params = Ok (Some q1) ->
  truthy (py_or (dict_get params "as_of")
                (dict_get params "moniker_version")) = true ->
  is_str (py_or (dict_get params "as_of")
                (dict_get params "moniker_version")) = true.
Proof.
  unfold build_query. intros H Ht.
  destruct q as [|c q]; [discriminate H |]. rewrite Ht in H.
  destruct (py_or _ _); try reflexivity; discriminate H.
Qed.

(** C7 (amended). When neither the temporal pass nor the filter pass acts,
    rewriting the rewritten query again with the same parameters gives the
    same query: the parameter mapping yields no filter, and either it sets
    no temporal value ([as_of], [moniker_version]) or [" FROM "] occurs
    neither in the upper-cased query nor in the upper-cased rewritten
    query. *)
Theorem rewriting_idempotent_without_injection (params : pydict)
        (q q1 : string) :
  truthy (py_or (dict_get params "as_of")
                (dict_get params "moniker_version")) = false
  \/ (find " FROM " (upper q) = None /\ find " FROM " (upper q1) = None) ->
  _extract_filters params = [] ->
  build_query (Some q) params = Ok (Some q1) ->
  rewrite_twice q params = Ok (Some q1).
Proof.
  intros Has_of Hf H1. unfold rewrite_twice. rewrite H1.
  assert (Hne : q <> "") by (intros ->; discriminate H1).
  assert (Hsel : forall q', q' = q \/ q' = q1 ->
            truthy (py_or (dict_get params "as_of")
                          (dict_get params "moniker_version")) = false
            \/ (is_str (py_or (dict_get params "as_of")
                              (dict_get params "moniker_version")) = true
                /\ find " FROM " (upper q') = None)).
  { intros q' Hq'.
    destruct (truthy (py_or (dict_get params "as_of")
                            (dict_get params "moniker_version"))) eqn:Et;
      [right | now left].
    split; [now apply (build_query_temporal_str params q q1) |].
    destruct Has_of as [Has_of | [Hq Hq1]]; [discriminate Has_of |].
    now destruct Hq' as [-> | ->]. }
  rewrite build_query_limit_only in H1; [| exact Hne | auto | exact Hf].
  injection H1 as H1.
  rewrite build_query_limit_only; [| | auto | exact Hf].
  - destruct (is_none (dict_get params "limit")); [reflexivity |].
    rewrite <- H1. now rewrite inject_limit_idem.
  - rewrite <- H1. destruct (is_none (dict_get params "limit"));
      [exact Hne | now apply inject_limit_nonempty].
Qed.

Lemma rewriting_idempotent_without_injection_witness :
  rewrite_twice "SELECT * FROM t ORDER BY x;" [("limit", PInt 10)]
  = Ok (Some "SELECT * FROM t ORDER BY x FETCH FIRST 10 ROWS ONLY")
  /\ rewrite_twice "SELECT 1" [("as_of", PStr "123"); ("limit", PInt 5)]
     = Ok (Some "SELECT 1 FETCH FIRST 5 ROWS ONLY").
Proof.
  split.
  - apply (rewriting_idempotent_without_injection [("limit", PInt 10)]
             "SELECT * FROM t ORDER BY x;");
      [left | |]; vm_compute; reflexivity.
  - apply (rewriting_idempotent_without_injection
             [("as_of", PStr "123"); ("limit", PInt 5)] "SELECT 1");
      [right; split | |]; vm_compute; reflexivity.
Defined.

(** C7 as stated fails: on the query [SELECT * FROM t] with the temporal
    value [123] the flashback clause is injected a second time, and with
    the filter [dept_id = 10] the condition is; the results differ by more
    than whitespace. *)
Lemma rewriting_counterexample :
  (build_query (Some "SELECT * FROM t") [("as_of", PStr "123")]
   = Ok (Some "SELECT * FROM t AS OF SCN 123")
   /\ rewrite_twice "SELECT * FROM t" [("as_of", PStr "123")]
      = Ok (Some "SELECT * FROM t AS OF SCN 123 AS OF SCN 123")
   /\ ~ same_modulo_whitespace
          "SELECT * FROM t AS OF SCN 123 AS OF SCN 123"
          "SELECT * FROM t AS OF SCN 123")
  /\ (build_query (Some "SELECT * FROM t") [("dept_id", PInt 10)]
      = Ok (Some "SELECT * FROM t WHERE dept_id = 10")
      /\ rewrite_twice "SELECT * FROM t" [("dept_id", PInt 10)]
         = Ok (Some "SELECT * FROM t WHERE dept_id = 10 AND dept_id = 10")
      /\ ~ same_modulo_whitespace
             "SELECT * FROM t WHERE dept_id = 10 AND dept_id = 10"
             "SELECT * FROM t WHERE dept_id = 10").
Proof.
  repeat split; try (vm_compute; reflexivity);
    unfold same_modulo_whitespace; vm_compute; discriminate.
Qed.

Lemma inject_where_contains query filters :
  filters <> [] ->
  contains (join " AND " (map condition filters))
           (_inject_where_clause query filters) = true.
Proof.
  intros Hne. unfold _inject_where_clause.
  destruct filters as [|kv rest]; [now destruct Hne |].
  destruct (find " WHERE " (upper query)) as [where_pos|].
  - apply contains_app.
  - rewrite <- (append_assoc (take _ query) " WHERE ").
    apply contains_app.
Qed.

(** C8, on the code. A filter whose value is an empty list or tuple is
    not dropped: filter extraction keeps it and filter injection writes
    the clause [key IN ()] into the query. *)
Theorem empty_sequence_filter_emits_in_clause (query key : string) :
  contains (key ++ " IN ()")
           (_inject_where_clause query [(key, PList [])]) = true
  /\ contains (key ++ " IN ()")
              (_inject_where_clause query [(key, PTuple [])]) = true
  /\ _extract_filters [("dept", PList [])] = [("dept", PList [])]
  /\ build_query (Some "SELECT * FROM t") [("dept", PList [])]
     = Ok (Some "SELECT * FROM t WHERE dept IN ()").
Proof.
  split; [| split; [| split; vm_compute; reflexivity]].
  - apply (inject_where_contains query [(key, PList [])]). discriminate.
  - apply (inject_where_contains query [(key, PTuple [])]). discriminate.
Qed.

(** The temporal rewrite of the specification's end-to-end scenario. *)
Example build_query_all_passes :
  build_query (Some "SELECT * FROM employees")
    [("as_of", PStr "2024-01-15 10:30:00"); ("dept_id", PInt 10);
     ("limit", PInt 100)]
  = Ok (Some "SELECT * FROM employees AS OF TIMESTAMP TO_TIMESTAMP('2024-01-15 10:30:00', 'YYYY-MM-DD HH24:MI:SS') WHERE dept_id = 10 FETCH FIRST 100 ROWS ONLY").
Proof. vm_compute. reflexivity. Qed.

(** Filters of [moniker_params] come first; reserved keys are skipped. *)
Example build_query_existing_where :
  build_query (Some "SELECT * FROM t WHERE x = 1 ORDER BY y;")
    [("dept", PList [PStr "a"; PStr "b"]);
     ("moniker_params", PDict [("k", PInt 3); ("limit", PInt 4)]);
     ("limit", PInt 5)]
  = Ok (Some "SELECT * FROM t WHERE k = 3 AND dept IN ('a', 'b') AND x = 1 ORDER BY y FETCH FIRST 5 ROWS ONLY").
Proof. vm_compute. reflexivity. Qed.

End OracleFacts.

(* ===================================================================== *)
(** * Further properties *)
(* ===================================================================== *)

(** ** Moniker normalization *)

Section MonikerMore.
Import PyStr Client.
Local Open Scope string_scope.

Lemma rstrip_by_length P s :
  (String.length (rstrip_by P s) <= String.length s)%nat.
Proof.
  induction s as [|a s IH]; simpl; [lia |].
  destruct (rstrip_by P s); [destruct (P a) |]; simpl in *; lia.
Qed.

Lemma rstrip_by_snoc P t c :
  P c = true -> rstrip_by P (t ++ String c "") = rstrip_by P t.
Proof.
  intros Hc. induction t as [|a t IH]; simpl; [now rewrite Hc |].
  now rewrite IH.
Qed.

Lemma append_length (a b : string) :
  String.length (a ++ b) = (String.length a + String.length b)%nat.
Proof. induction a as [|x a IH]; simpl; [reflexivity | now rewrite IH]. Qed.

Lemma stripped_no_trailing P s t c :
  P c = true -> rstrip_by P s = s -> s <> t ++ String c "".
Proof.
  intros Hc Hs ->. rewrite rstrip_by_snoc in Hs by exact Hc.
  pose proof (rstrip_by_length P t) as Hl. rewrite Hs in Hl.
  rewrite append_length in Hl. simpl in Hl. lia.
Qed.

(** X1. The URI of a moniker names the same moniker: building a moniker
    from [m.uri] gives the path of [m], for every input string. *)
Theorem moniker_uri_roundtrip (p : string) :
  Moniker_path (Moniker_init (Moniker_uri (Moniker_init p)))
  = Moniker_path (Moniker_init p).
Proof.
  destruct (Moniker_init_stripped p) as [y Hy].
  unfold Moniker_uri.
  change (_path (Moniker_init p)) with (Moniker_path (Moniker_init p)).
  rewrite Hy. unfold Moniker_init at 1, Moniker_path at 1. cbn [_path].
  unfold startswith. rewrite prefix_app_self.
  change (drop (String.length scheme) (scheme ++ strip "/" y))
    with (strip "/" y).
  apply strip_by_idem.
Qed.

(** X2. A normalized path never begins and never ends with the
    separator. *)
Theorem moniker_path_has_no_outer_separator (p : string) :
  startswith "/" (Moniker_path (Moniker_init p)) = false
  /\ forall t, Moniker_path (Moniker_init p) <> t ++ "/".
Proof.
  destruct (Moniker_init_stripped p) as [y ->]. split.
  - destruct (strip "/" y) as [|c t] eqn:E; [reflexivity |].
    unfold strip, strip_by in E. apply lstrip_by_head in E.
    unfold startswith. cbn [String.prefix].
    destruct (ascii_dec "/" c) as [<-|]; [discriminate E | reflexivity].
  - intros t. apply (stripped_no_trailing (is_char "/"));
      [reflexivity | apply strip_by_rstrip].
Qed.

Lemma stripped_lstrip y : lstrip_by (is_char "/") (strip "/" y) = strip "/" y.
Proof. unfold strip, strip_by. apply lstrip_by_idem. Qed.

(** A stripped path followed by one separator is not the scheme unless
    the path already starts with it. *)
Lemma no_scheme_after_separator y :
  startswith scheme (strip "/" y) = false ->
  startswith scheme (strip "/" y ++ "/") = false.
Proof.
  intros Hns.
  destruct (startswith scheme (strip "/" y ++ "/")) eqn:E; [| reflexivity].
  exfalso. unfold startswith in *.
  apply prefix_app_inv in E as [E | (s2 & Heq & Hp)]; [congruence |].
  pose proof (strip_by_rstrip (is_char "/") y) as Hr.
  fold (strip "/" y) in Hr.
  unfold scheme in *.
  destruct (strip "/" y) as [|c0 P];
    [cbn [String.append] in Heq; subst s2; vm_compute in Hp; discriminate |].
  repeat match goal with
  | H : String _ _ = String _ ?P ++ _ |- _ =>
      change (String ?a ?P ++ ?z) with (String a (P ++ z)) in H;
      injection H as <- H;
      destruct P as [|? ?];
      [ cbn [String.append] in H; subst s2 |]
  | H : "" = String _ _ ++ _ |- _ => discriminate H
  end;
  try (vm_compute in Hp; discriminate Hp);
  try (vm_compute in Hns; discriminate Hns);
  try (vm_compute in Hr; discriminate Hr).
Qed.

(** X3. Below a non-empty path that does not start with the scheme
    prefix, [child] appends the separator and the stripped subpath. *)
Theorem child_appends_segment (p s : string) :
  Moniker_path (Moniker_init p) <> "" ->
  startswith scheme (Moniker_path (Moniker_init p)) = false ->
  strip "/" s <> "" ->
  Moniker_path (child (Moniker_init p) s)
  = Moniker_path (Moniker_init p) ++ "/" ++ strip "/" s.
Proof.
  destruct (Moniker_init_stripped p) as [y Hy].
  unfold child.
  change (_path (Moniker_init p)) with (Moniker_path (Moniker_init p)).
  rewrite Hy. intros Hne Hns Hs.
  rewrite Moniker_init_id; [reflexivity | | ].
  - now apply no_scheme_after_child.
  - unfold strip at 1, strip_by.
    replace (strip "/" y ++ "/" ++ strip "/" s)
      with ((strip "/" y ++ "/") ++ strip "/" s)
      by now rewrite append_assoc.
    rewrite rstrip_by_app; [| exact Hs | apply strip_by_rstrip].
    destruct (strip "/" y) as [|c t] eqn:Ey; [now destruct Hne |].
    unfold strip, strip_by in Ey. apply lstrip_by_head in Ey.
    change ((String c t ++ "/") ++ strip "/" s)
      with (String c ((t ++ "/") ++ strip "/" s)).
    cbn [lstrip_by]. now rewrite Ey.
Qed.

Lemma child_appends_segment_witness :
  Moniker_path (child (Moniker_init "/test/") "/data/sub/")
  = "test/data/sub".
Proof.
  apply (child_appends_segment "/test/" "/data/sub/");
    vm_compute; congruence.
Defined.

(** X4. A subpath made of separators only (or empty) names no child:
    [child] returns a moniker with the same path. *)
Theorem child_of_empty_subpath (p s : string) :
  startswith scheme (Moniker_path (Moniker_init p)) = false ->
  strip "/" s = "" ->
  Moniker_path (child (Moniker_init p) s) = Moniker_path (Moniker_init p).
Proof.
  destruct (Moniker_init_stripped p) as [y Hy].
  unfold child.
  change (_path (Moniker_init p)) with (Moniker_path (Moniker_init p)).
  rewrite Hy. intros Hns ->. change ("/" ++ "") with "/".
  unfold Moniker_init, Moniker_path. cbn [_path].
  rewrite no_scheme_after_separator by exact Hns.
  pose proof (strip_by_rstrip (is_char "/") y) as Hr.
  fold (strip "/" y) in Hr.
  unfold strip at 1. unfold strip_by at 1.
  rewrite rstrip_by_snoc by reflexivity.
  rewrite Hr. apply stripped_lstrip.
Qed.

Lemma child_of_empty_subpath_witness :
  Moniker_path (child (Moniker_init "a/b") "//") = "a/b".
Proof.
  apply (child_of_empty_subpath "a/b" "//"); vm_compute; reflexivity.
Defined.

End MonikerMore.

(** ** More on the circuit breaker *)

Section BreakerMore.
Import Exn Resilience Runs.

(** What every call preserves. *)
Lemma breaker_call_invariant c cb ft :
  (1 <= ft)%Z ->
  failure_threshold cb = ft ->
  (0 <= _failure_count cb)%Z ->
  (_state cb = CLOSED -> (_failure_count cb < ft)%Z) ->
  failure_threshold (breaker_call c cb) = ft
  /\ recovery_timeout (breaker_call c cb) = recovery_timeout cb
  /\ success_threshold (breaker_call c cb) = success_threshold cb
  /\ (0 <= _failure_count (breaker_call c cb))%Z
  /\ (_state (breaker_call c cb) = CLOSED ->
      (_failure_count (breaker_call c cb) < ft)%Z).
Proof.
  intros Hft Hth Hpos Hcl.
  destruct c as [now now'| |now]; cbn [breaker_call];
    unfold before_request, on_success, on_failure; rewrite ?Hth;
    destruct (_state cb) eqn:Es;
    try destruct (Qle_bool _ _);
    try destruct (success_threshold cb <=? _success_count cb + 1)%Z;
    try destruct (Z.leb_spec ft (_failure_count cb + 1));
    cbn; rewrite ?Es; repeat split; auto; try lia;
    try (intros ?; first [discriminate | lia]).
Qed.

(** X5. Whatever calls are made on a breaker built with a positive
    [failure_threshold], its thresholds never change, its failure count
    is never negative, and while it is Closed the failure count stays
    below the threshold. *)
Theorem breaker_invariant (ft : Z) (rt : Q) (st : Z)
        (calls : list BreakerCall) :
  (1 <= ft)%Z ->
  failure_threshold (breaker_run calls (new_breaker ft rt st)) = ft
  /\ recovery_timeout (breaker_run calls (new_breaker ft rt st)) = rt
  /\ success_threshold (breaker_run calls (new_breaker ft rt st)) = st
  /\ (0 <= _failure_count (breaker_run calls (new_breaker ft rt st)))%Z
  /\ (_state (breaker_run calls (new_breaker ft rt st)) = CLOSED ->
      (_failure_count (breaker_run calls (new_breaker ft rt st)) < ft)%Z).
Proof.
  intros Hft. induction calls as [|c calls IH] using rev_ind.
  - cbn. repeat split; auto; lia.
  - unfold breaker_run in *. rewrite fold_left_app. cbn [fold_left].
    destruct IH as (I1 & I2 & I3 & I4 & I5).
    destruct (breaker_call_invariant c _ ft Hft I1 I4 I5)
      as (J1 & J2 & J3 & J4 & J5).
    rewrite J2, J3. auto.
Qed.

Lemma breaker_invariant_witness :
  (_failure_count
     (breaker_run [OnFailure 1; OnFailure 2; BeforeRequest 3 3; OnSuccess;
                   OnFailure 4]
                  (new_breaker 5 30 2)) < 5)%Z.
Proof.
  apply (breaker_invariant 5 30 2
           [OnFailure 1; OnFailure 2; BeforeRequest 3 3; OnSuccess;
            OnFailure 4]); [lia | reflexivity].
Defined.

Lemma successes_S n cb : successes (S n) cb = on_success (successes n cb).
Proof. reflexivity. Qed.

Lemma successes_half_open n cb :
  _state cb = HALF_OPEN ->
  (_success_count cb + Z.of_nat n < success_threshold cb)%Z ->
  _state (successes n cb) = HALF_OPEN
  /\ _success_count (successes n cb) = (_success_count cb + Z.of_nat n)%Z
  /\ success_threshold (successes n cb) = success_threshold cb
  /\ _failure_count (successes n cb) = _failure_count cb.
Proof.
  intros Hh. induction n as [|n IH]; intros Hlt.
  - cbn. repeat split; auto; lia.
  - destruct IH as (I1 & I2 & I3 & I4); [lia |].
    rewrite successes_S. unfold on_success.
    rewrite I1, I2, I3.
    destruct (Z.leb_spec (success_threshold cb)
                (_success_count cb + Z.of_nat n + 1)); [lia |].
    cbn. repeat split; auto; lia.
Qed.

(** X6. A breaker that has just become HalfOpen stays HalfOpen through
    fewer than [success_threshold] successes, keeping its failure count,
    and the [success_threshold]-th success in a row closes it with a
    failure count of zero. *)
Theorem half_open_closes_after_threshold (cb : ClientCircuitBreaker)
        (n : nat) :
  _state cb = HALF_OPEN ->
  _success_count cb = 0%Z ->
  ((Z.of_nat n < success_threshold cb)%Z ->
   _state (successes n cb) = HALF_OPEN
   /\ _failure_count (successes n cb) = _failure_count cb)
  /\ ((1 <= n)%nat ->
      Z.of_nat n = success_threshold cb ->
      _state (successes n cb) = CLOSED
      /\ _failure_count (successes n cb) = 0%Z).
Proof.
  intros Hh H0. split.
  - intros Hlt.
    destruct (successes_half_open n cb Hh) as (I1 & _ & _ & I4); [lia |].
    now split.
  - intros Hn Heq. destruct n as [|n]; [lia |].
    destruct (successes_half_open n cb Hh) as (I1 & I2 & I3 & _); [lia |].
    rewrite successes_S. unfold on_success.
    rewrite I1, I2, I3.
    destruct (Z.leb_spec (success_threshold cb)
                (_success_count cb + Z.of_nat n + 1)); [| lia].
    now split.
Qed.

Lemma half_open_closes_after_threshold_witness :
  _state
    (successes 2
       (snd (before_request 80 80
               (failures [41; 42; 43; 44; 45]%Q default_breaker)))) = CLOSED.
Proof.
  eapply proj1.
  apply (proj2 (half_open_closes_after_threshold
                  (snd (before_request 80 80
                          (failures [41; 42; 43; 44; 45]%Q default_breaker)))
                  2 eq_refl eq_refl)); [lia | reflexivity].
Defined.

(** X7. A failure while HalfOpen reopens the breaker at once, whatever
    the failure count, and restarts the cool-down from the time of that
    failure: calls made less than [recovery_timeout] later fail fast. *)
Theorem half_open_failure_reopens (cb : ClientCircuitBreaker) (t : Q) :
  _state cb = HALF_OPEN ->
  _state (on_failure t cb) = OPEN
  /\ _opened_at (on_failure t cb) = t
  /\ forall now now',
       (now - t < recovery_timeout cb)%Q ->
       before_request now now' (on_failure t cb)
       = (Raise (BreakerOpen (recovery_timeout cb - (now' - t))),
          on_failure t cb).
Proof.
  intros Hh.
  assert (H : _state (on_failure t cb) = OPEN
              /\ _opened_at (on_failure t cb) = t
              /\ recovery_timeout (on_failure t cb) = recovery_timeout cb).
  { unfold on_failure. rewrite Hh. now cbn. }
  destruct H as (Ho & Ht & Hr). repeat split; auto.
  intros now now' Hlt.
  rewrite before_request_open_early; rewrite ?Ht, ?Hr; auto.
Qed.

Lemma half_open_failure_reopens_witness :
  _state
    (on_failure 81
       (snd (before_request 80 80
               (failures [41; 42; 43; 44; 45]%Q default_breaker)))) = OPEN.
Proof.
  eapply proj1.
  apply (half_open_failure_reopens
           (snd (before_request 80 80
                   (failures [41; 42; 43; 44; 45]%Q default_breaker))) 81).
  reflexivity.
Defined.

End BreakerMore.

(** ** More on the retry engine *)

Section RetryCount.
Import Exn Resilience.
Context {St T : Type}.
Variable random : St -> Q * St.
Variable sleep : Q -> St -> St.
Variable func : St -> Result T * St.
Variable config : RetryConfig.
Variable count : St -> nat.

(** X8. Whatever the work does, the retry engine invokes it at most
    [max_retries + 1] times, and at least once when [max_retries] is not
    negative: counted by anything that each invocation increments and that
    the random draw and the sleep leave alone. *)
Theorem retry_attempts_bounded (st : St) :
  (forall s, count (snd (func s)) = S (count s)) ->
  (forall s, count (snd (random s)) = count s) ->
  (forall d s, count (sleep d s) = count s) ->
  (count (snd (retry_with_backoff random sleep func config st))
   <= count st + Z.to_nat (max_retries config + 1))%nat
  /\ ((0 <= max_retries config)%Z ->
      (count st + 1
       <= count (snd (retry_with_backoff random sleep func config st)))%nat).
Proof.
  intros Hfunc Hrandom Hsleep. unfold retry_with_backoff.
  destruct (retry_loop_count random sleep func config count
              (seq 0 (Z.to_nat (max_retries config + 1)))
              None st Hfunc Hrandom Hsleep) as [[_ Hup] Hlow].
  rewrite length_seq in Hup. split; [exact Hup |].
  intros Hpos. apply Hlow.
  replace (Z.to_nat (max_retries config + 1))
    with (S (Z.to_nat (max_retries config))) by lia.
  discriminate.
Qed.

End RetryCount.

Section RetryMore.
Import Exn Resilience Runs.

Lemma retry_attempts_bounded_witness :
  (snd (retry_with_backoff (fun n => (0%Q, n)) (fun _ n => n) timing_out
          default_RetryConfig 0%nat)
   <= 0 + Z.to_nat (max_retries default_RetryConfig + 1))%nat.
Proof.
  eapply proj1.
  apply (retry_attempts_bounded (fun n => (0%Q, n)) (fun _ n => n)
           timing_out default_RetryConfig (fun n => n) 0%nat);
    reflexivity.
Defined.




(** X10. The classifier of the retry engine: [NotFoundError] and
    [ResolutionError] are terminal under every configuration, and a
    status error is retryable exactly when its status code is in
    [retryable_status_codes]. *)
Theorem retry_classification (config : RetryConfig) :
  (forall msg, is_retryable config (NotFoundError msg) = false)
  /\ (forall msg, is_retryable config (ResolutionError msg) = false)
  /\ (forall c, is_retryable config (HTTPStatusError c) = true
                <-> c ∈ retryable_status_codes config).
Proof.
  repeat split; try reflexivity.
  - intros H. unfold is_retryable in H. cbn in H.
    rewrite orb_false_r in H. now apply bool_decide_eq_true in H.
  - intros H. unfold is_retryable. cbn. rewrite orb_false_r.
    now apply bool_decide_eq_true.
Qed.

Lemma retry_classification_witness :
  is_retryable default_RetryConfig (HTTPStatusError 503) = true.
Proof.
  apply (proj2 (proj2 (retry_classification default_RetryConfig))).
  unfold default_RetryConfig. cbn [retryable_status_codes]. set_solver.
Defined.

(** X11. With a jitter draw in [0, 1] the delay before a retry never
    exceeds 1.25 times [max_delay_seconds], and it is never negative when
    the base delay, the exponential base and the maximal delay are not. *)
Theorem backoff_delay_bounded (config : RetryConfig) (attempt : nat)
        (r : Q) :
  (0 <= r)%Q -> (r <= 1)%Q ->
  (0 <= max_delay_seconds config)%Q ->
  (backoff_delay config attempt r <= (5 # 4) * max_delay_seconds config)%Q
  /\ ((0 <= base_delay_seconds config)%Q ->
      (0 <= exponential_base config)%Q ->
      (0 <= backoff_delay config attempt r)%Q).
Proof.
  intros Hr0 Hr1 Hmax. unfold backoff_delay.
  set (d := (base_delay_seconds config
             * exponential_base config ^ Z.of_nat attempt)%Q).
  assert (Hmin : (Qmin d (max_delay_seconds config)
                  <= max_delay_seconds config)%Q) by apply Q.le_min_r.
  split.
  - set (x := Qmin d (max_delay_seconds config)) in *. nra.
  - intros Hb He.
    assert (Hd : (0 <= d)%Q).
    { unfold d. apply Qmult_le_0_compat; [exact Hb |].
      now apply Qpower_0_le. }
    assert (Hx : (0 <= Qmin d (max_delay_seconds config))%Q)
      by now apply Q.min_glb.
    set (x := Qmin d (max_delay_seconds config)) in *. nra.
Qed.

Lemma backoff_delay_bounded_witness :
  (backoff_delay default_RetryConfig 9 (1 # 2)
   <= (5 # 4) * max_delay_seconds default_RetryConfig)%Q.
Proof.
  eapply proj1.
  apply (backoff_delay_bounded default_RetryConfig 9 (1 # 2));
    vm_compute; discriminate.
Defined.

End RetryMore.

(** ** More on resolve *)

Section ResolveMore.
Import Exn PyVal Resilience Client Endpoints.

Lemma sent_emit e w :
  sent (emit e w) = (sent w + (if is_http e then 1 else 0))%nat.
Proof.
  unfold sent. cbn [emit trace]. rewrite List.filter_app, length_app.
  cbn [List.filter]. now destruct (is_http e).
Qed.

Lemma emit_deprecation_sent cfg r w :
  sent (snd (emit_deprecation cfg r w)) = sent w.
Proof.
  unfold emit_deprecation.
  destruct (deprecation_enabled cfg && is_deprecated r
            && warn_on_deprecated cfg); [| reflexivity].
  destruct (deprecation_callback cfg) as [cb|].
  - destruct (cb _ _ _); cbn [snd]; rewrite !sent_emit; cbn; lia.
  - cbn [snd]. rewrite !sent_emit. cbn. lia.
Qed.

Lemma do_resolve_sent cfg p w :
  sent (snd (_do_resolve cfg p w)) = S (sent w).
Proof.
  unfold sent. rewrite do_resolve_trace, List.filter_app, length_app.
  cbn. lia.
Qed.

Lemma resolve_try_sent m p self w :
  sent (snd (resolve_try m p self w))
  = sent (snd (retry_with_backoff random sleep (_do_resolve (config self) p)
                 (_retry_config self) w)).
Proof.
  unfold resolve_try.
  destruct (retry_with_backoff _ _ _ _ w) as [[data|e] w1]; [| reflexivity].
  destruct (as_binding data) as [resolved|e]; [| reflexivity].
  pose proof (emit_deprecation_sent (config self) resolved w1) as H.
  destruct (emit_deprecation _ resolved w1) as [[[]|e] w2]; exact H.
Qed.

Lemma retry_resolve_sent cfg p rc w :
  (sent (snd (retry_with_backoff random sleep (_do_resolve cfg p) rc w))
   <= sent w + Z.to_nat (max_retries rc + 1))%nat
  /\ ((0 <= max_retries rc)%Z ->
      (sent w + 1
       <= sent (snd (retry_with_backoff random sleep (_do_resolve cfg p)
                       rc w)))%nat).
Proof.
  unfold retry_with_backoff.
  destruct (retry_loop_count random sleep (_do_resolve cfg p) rc sent
              (seq 0 (Z.to_nat (max_retries rc + 1))) None w)
    as [[_ Hup] Hlow].
  - intros s. apply do_resolve_sent.
  - intros s. unfold random. now destruct (randoms s).
  - intros d s. unfold sleep. rewrite sent_emit. cbn. unfold sent. cbn. lia.
  - rewrite length_seq in Hup. split; [exact Hup |].
    intros Hpos. apply Hlow.
    replace (Z.to_nat (max_retries rc + 1))
      with (S (Z.to_nat (max_retries rc))) by lia.
    discriminate.
Qed.

(** X12. An HTTP answer of the resolver whose status is not 200 ends a
    resolve after its single GET, whatever the status: 404 raises
    [NotFoundError] and leaves the breaker alone, every other status,
    those of [retryable_status_codes] included, raises [ResolutionError]
    without a retry and is recorded as one breaker failure. *)
Theorem resolve_status_error_not_retried (m : string)
        (self : MonikerClient) (w : World) (cb : ClientCircuitBreaker)
        (resp : Response) :
  cache_hit self w m = None ->
  before_request (mono w) (mono w) (_circuit_breaker self) = (Ok tt, cb) ->
  (0 <= max_retries (_retry_config self))%Z ->
  outcome (server w (sent w)
             (resolve_request (config self) (PyStr.replace scheme "" m)))
  = Answer resp ->
  status_code resp <> 200%Z ->
  fst (fst (_resolve m self w))
  = Raise (status_error (PyStr.replace scheme "" m) resp)
  /\ trace (snd (_resolve m self w))
     = trace w ++ [Http (resolve_request (config self)
                                          (PyStr.replace scheme "" m))]
  /\ _circuit_breaker (snd (fst (_resolve m self w)))
     = (if (status_code resp =? 404)%Z then cb
        else on_failure (mono (snd (_resolve m self w))) cb).
Proof.
  intros Hmiss Hb Hpos Hout Hne. unfold _resolve. rewrite Hmiss, Hb.
  unfold resolve_try. cbn [config _retry_config set_breaker].
  assert (Hdo : _do_resolve (config self) (PyStr.replace scheme "" m) w
                = (Raise (status_error (PyStr.replace scheme "" m) resp),
                   snd (_do_resolve (config self)
                          (PyStr.replace scheme "" m) w))).
  { unfold _do_resolve, http, status_error. fold (resolve_request
      (config self) (PyStr.replace scheme "" m)). rewrite Hout.
    destruct (status_code resp =? 404)%Z; [reflexivity |].
    destruct (Z.eqb_spec (status_code resp) 200); [contradiction |].
    reflexivity. }
  assert (Hterm : is_retryable (_retry_config self)
                    (status_error (PyStr.replace scheme "" m) resp) = false).
  { unfold status_error. now destruct (status_code resp =? 404)%Z. }
  rewrite retry_first_attempt; [| exact Hpos | now rewrite Hdo].
  rewrite Hdo.
  pose proof (do_resolve_trace (config self) (PyStr.replace scheme "" m) w)
    as Ht.
  unfold status_error in *.
  destruct (status_code resp =? 404)%Z; cbn; auto.
Qed.

Lemma resolve_status_error_not_retried_witness :
  fst (fst (_resolve "moniker://a/b" (new_client (Scenario.cfg 60 true))
              (Scenario.world (Scenario.answer 503 "busy" Scenario.no_json))))
  = Raise (ResolutionError "Resolution failed: busy").
Proof.
  eapply proj1.
  apply (resolve_status_error_not_retried "moniker://a/b"
           (new_client (Scenario.cfg 60 true))
           (Scenario.world (Scenario.answer 503 "busy" Scenario.no_json))
           default_breaker
           {| status_code := 503; text := "busy";
              json := Scenario.no_json |});
    try reflexivity; vm_compute; discriminate.
Defined.

(** X13. A resolve never sends more than [max_retries + 1] HTTP
    requests, whatever the cache, the breaker and the resolver do. *)
Theorem resolve_requests_bounded (m : string) (self : MonikerClient)
        (w : World) :
  (sent (snd (_resolve m self w))
   <= sent w + Z.to_nat (max_retries (_retry_config self) + 1))%nat.
Proof.
  unfold _resolve. destruct (cache_hit self w m); [cbn; lia |].
  destruct (before_request _ _ _) as [[[]|e] cb]; [| cbn; lia].
  pose proof (resolve_try_sent m (PyStr.replace scheme "" m)
                (set_breaker self cb) w) as Hs.
  destruct (retry_resolve_sent (config self) (PyStr.replace scheme "" m)
              (_retry_config self) w) as [Hup _].
  cbn [config _retry_config set_breaker] in Hs.
  destruct (resolve_try _ _ _ w) as [[[r|e] self1] w1]; cbn [snd] in *.
  - lia.
  - destruct (is_not_found e); cbn [snd]; lia.
Qed.

(** X14. When a cached entry has reached its time to live the resolve
    does not use it: a successful resolve then sends at least one request
    and leaves the new binding in the cache, stamped with the time of the
    write. *)
Theorem expired_entry_is_refreshed (m : string) (self : MonikerClient)
        (w : World) (r0 : ResolvedSource) (t0 : Q) :
  _cache self !! m = Some (r0, t0) ->
  (cache_ttl (config self) <= wall w - t0)%Q ->
  cache_hit self w m = None
  /\ forall r self1 w1,
       (0 < cache_ttl (config self))%Q ->
       _resolve m self w = (Ok r, self1, w1) ->
       _cache self1 !! m = Some (r, wall w1) /\ (sent w < sent w1)%nat.
Proof.
  intros Hc Hexp.
  assert (Hmiss : cache_hit self w m = None).
  { unfold cache_hit. destruct (Qlt_le_dec 0 _); [| reflexivity].
    rewrite Hc. destruct (Qlt_le_dec (wall w - t0) _); [lra | reflexivity]. }
  split; [exact Hmiss |].
  intros r self1 w1 Hon Hres. unfold _resolve in Hres. rewrite Hmiss in Hres.
  destruct (before_request _ _ _) as [[[]|e] cb]; [| discriminate].
  pose proof (resolve_try_sent m (PyStr.replace scheme "" m)
                (set_breaker self cb) w) as Hs.
  unfold resolve_try in *. cbn [config _retry_config set_breaker] in *.
  destruct (Z_le_gt_dec 0 (max_retries (_retry_config self))) as [Hp|Hn].
  - destruct (retry_resolve_sent (config self) (PyStr.replace scheme "" m)
                (_retry_config self) w) as [_ Hlow].
    specialize (Hlow Hp).
    destruct (retry_with_backoff _ _ _ _ w) as [[data|e] w0];
      [| destruct (is_not_found e); discriminate].
    destruct (as_binding data) as [resolved|e];
      [| destruct (is_not_found e); discriminate].
    destruct (emit_deprecation _ resolved w0) as [[[]|e] w2];
      [| destruct (is_not_found e); discriminate].
    injection Hres as -> <- <-. cbn [snd] in *. split; [| lia].
    unfold cache_write. cbn [config set_breaker].
    destruct (Qlt_le_dec 0 _); [| lra].
    cbn [_cache set_breaker set_cache]. apply lookup_insert_eq.
  - rewrite retry_exhausted_without_attempt in Hres by lia.
    discriminate.
Qed.

Lemma expired_entry_is_refreshed_witness :
  cache_hit (Scenario.warmed (Scenario.cfg 5 true) Scenario.binding)
            (Scenario.world
               (Scenario.answer 200 "" (Ok (Scenario.body Scenario.binding))))
            "moniker://a/b" = None.
Proof.
  eapply proj1.
  apply (expired_entry_is_refreshed "moniker://a/b"
           (Scenario.warmed (Scenario.cfg 5 true) Scenario.binding)
           (Scenario.world
              (Scenario.answer 200 "" (Ok (Scenario.body Scenario.binding))))
           Scenario.binding 990%Q);
    vm_compute; first [reflexivity | discriminate].
Defined.

(** X15. A resolve that is answered by the resolver while the breaker is
    Closed leaves the breaker Closed with a failure count of zero:
    failures count only while they are consecutive. *)
Theorem resolve_success_clears_failures (m : string) (self : MonikerClient)
        (w : World) (r : ResolvedSource) (self1 : MonikerClient)
        (w1 : World) :
  cache_hit self w m = None ->
  _state (_circuit_breaker self) = CLOSED ->
  _resolve m self w = (Ok r, self1, w1) ->
  _state (_circuit_breaker self1) = CLOSED
  /\ _failure_count (_circuit_breaker self1) = 0%Z.
Proof.
  intros Hmiss Hc Hres. unfold _resolve in Hres. rewrite Hmiss in Hres.
  unfold before_request in Hres. rewrite Hc in Hres.
  unfold resolve_try in Hres.
  destruct (retry_with_backoff _ _ _ _ w) as [[data|e] w0];
    [| destruct (is_not_found e); discriminate].
  destruct (as_binding data) as [resolved|e];
    [| destruct (is_not_found e); discriminate].
  destruct (emit_deprecation _ resolved w0) as [[[]|e] w2];
    [| destruct (is_not_found e); discriminate].
  injection Hres as _ <- _.
  unfold cache_write. cbn [config set_breaker].
  destruct (Qlt_le_dec 0 _); cbn [_circuit_breaker set_breaker set_cache];
    unfold on_success; rewrite Hc; now cbn.
Qed.

Lemma resolve_success_clears_failures_witness :
  let self := set_breaker (new_client (Scenario.cfg 60 true))
                (failures [1; 2; 3]%Q default_breaker) in
  let w := Scenario.world
             (Scenario.answer 200 "" (Ok (Scenario.body Scenario.binding))) in
  _state (_circuit_breaker (snd (fst (_resolve "moniker://a/b" self w))))
  = CLOSED
  /\ _failure_count
       (_circuit_breaker (snd (fst (_resolve "moniker://a/b" self w))))
     = 0%Z.
Proof.
  intros self w.
  apply (resolve_success_clears_failures "moniker://a/b" self w
           Scenario.binding
           (snd (fst (_resolve "moniker://a/b" self w)))
           (snd (_resolve "moniker://a/b" self w)));
    vm_compute; reflexivity.
Defined.

End ResolveMore.

(** ** read, batch_resolve and the plain endpoints *)

Section ClientMore.
Import Exn PyVal Resilience Client Endpoints.

(** [read] is [read_with] at an adapter that leaves the world alone. *)
Lemma read_with_pure_adapter (m : string) (self : MonikerClient) (w : World) :
  read_with (fun resolved w1 => (adapter w1 resolved, w1)) m self w
  = read m self w.
Proof.
  unfold read_with, read.
  destruct (_resolve (normalize m) self w) as [[[r|e] self1] w1];
    [| reflexivity].
  now destruct (adapter w1 r).
Qed.

(** X16. Whatever the adapter does while it fetches: with telemetry on,
    the last thing [read] sends, successful or not, is one POST to
    [/telemetry/access], after the resolution and the fetch, and the
    outcome it reports is [success] for returned data, [not_found] for a
    [NotFoundError] and [error] for anything else; with telemetry off
    [read] itself sends nothing after the resolution and the fetch. *)
Theorem read_reports_outcome
        (fetch : ResolvedSource -> World -> Result pyval * World)
        (m : string) (self : MonikerClient) (w : World) :
  (report_telemetry (config self) = true ->
   exists rq,
     trace (snd (read_with fetch m self w))
     = trace (before_finally fetch m self w) ++ [Http rq]
     /\ meth rq = POST
     /\ url rq = (service_url (config self) ++ "/telemetry/access")%string
     /\ telemetry_tag rq
        = Some (telemetry_outcome (fst (fst (read_with fetch m self w)))))
  /\ (report_telemetry (config self) = false ->
      snd (read_with fetch m self w) = before_finally fetch m self w).
Proof.
  unfold read_with, before_finally, read_finally, _report_telemetry, http.
  split; intros Hrep; rewrite Hrep;
    destruct (_resolve (normalize m) self w) as [[[r|e] self1] w1];
    cbn [fst snd];
    try destruct (fetch r w1) as [[data|e] w2];
    try destruct (is_not_found e) eqn:Enf;
    cbn [fst snd emit advance trace telemetry_outcome is_not_found];
    rewrite ?Enf; try reflexivity; eexists; repeat split.
Qed.

Lemma read_reports_outcome_witness :
  let self := new_client (Scenario.cfg 60 true) in
  let w := Scenario.world
             (Scenario.answer 200 "" (Ok (Scenario.body Scenario.binding))) in
  let fetch := fun (_ : ResolvedSource) w1 =>
                 (Raise (OtherError "ValueError" "no rows"),
                  sleep 2 (snd (http {| meth := GET;
                                        url := "http://source/rows";
                                        payload := NoBody |} w1))) in
  exists rq,
    trace (snd (read_with fetch "a/b" self w))
    = trace (before_finally fetch "a/b" self w) ++ [Http rq]
    /\ meth rq = POST
    /\ url rq = "http://mock/telemetry/access"%string
    /\ telemetry_tag rq = Some "error"%string.
Proof.
  intros self w fetch.
  apply (proj1 (read_reports_outcome fetch "a/b" self w)). reflexivity.
Defined.

Lemma batch_cached_all_hit self w l :
  forall results uncached,
    Forall (fun m => cache_hit self w m <> None) l ->
    snd (batch_cached self w l results uncached) = uncached
    /\ (forall m, In m l ->
          is_Some (fst (batch_cached self w l results uncached)
                   !! PyStr.replace scheme "" m))
    /\ (forall k, is_Some (results !! k) ->
          is_Some (fst (batch_cached self w l results uncached) !! k))
    /\ (forall k r,
          fst (batch_cached self w l results uncached) !! k = Some r ->
          results !! k = Some r
          \/ exists m, In m l /\ k = PyStr.replace scheme "" m
                       /\ cache_hit self w m = Some r).
Proof.
  induction l as [|m l IH]; intros results uncached Hall.
  - cbn. repeat split; auto. intros m [].
  - inversion Hall as [|? ? Hm Hl]; subst. cbn [batch_cached].
    destruct (cache_hit self w m) as [r|] eqn:Eh; [| congruence].
    destruct (IH (<[PyStr.replace scheme "" m := r]> results) uncached Hl)
      as (I1 & I2 & I3 & I4).
    split; [exact I1 |]. split; [| split].
    + intros m' [<-|Hin]; [| now apply I2].
      apply I3. rewrite lookup_insert_eq. eauto.
    + intros k Hk. apply I3.
      destruct (decide (PyStr.replace scheme "" m = k)) as [<-|Hne].
      * rewrite lookup_insert_eq. eauto.
      * now rewrite lookup_insert_ne.
    + intros k r' Hk. destruct (I4 k r' Hk) as [Hres | (m' & Hin & -> & Hh)].
      * destruct (decide (PyStr.replace scheme "" m = k)) as [<-|Hne].
        -- rewrite lookup_insert_eq in Hres. injection Hres as <-.
           right. exists m. repeat split; auto. now left.
        -- rewrite lookup_insert_ne in Hres by exact Hne. now left.
      * right. exists m'. repeat split; auto. now right.
Qed.

(** X17. When every requested moniker has a live cache entry (in
    particular for an empty request) [batch_resolve] sends nothing and
    does not consult the breaker, even an open one: client and world are
    unchanged, every requested path is in the result, and every entry of
    the result is the live cache entry of a requested moniker. *)
Theorem batch_resolve_all_cached (monikers : list string)
        (self : MonikerClient) (w : World) :
  Forall (fun m => cache_hit self w (normalize m) <> None) monikers ->
  exists results,
    batch_resolve monikers self w = (Ok results, self, w)
    /\ (forall m, In m monikers ->
          is_Some (results !! PyStr.replace scheme "" (normalize m)))
    /\ (forall k r, results !! k = Some r ->
          exists m, In m monikers
                    /\ k = PyStr.replace scheme "" (normalize m)
                    /\ cache_hit self w (normalize m) = Some r).
Proof.
  intros Hall. unfold batch_resolve.
  destruct (batch_cached_all_hit self w (map normalize monikers) ∅ [])
    as (H1 & H2 & _ & H4).
  { now apply List.Forall_map. }
  destruct (batch_cached self w (map normalize monikers) ∅ [])
    as [results uncached].
  cbn [fst snd] in *. subst uncached. exists results.
  split; [reflexivity |]. split.
  - intros m Hin. apply H2. now apply in_map.
  - intros k r Hk. destruct (H4 k r Hk) as [He | (m' & Hin & -> & Hh)].
    + rewrite lookup_empty in He. discriminate.
    + apply in_map_iff in Hin as (m & <- & Hin). eauto.
Qed.

Lemma batch_resolve_all_cached_witness :
  exists results,
    batch_resolve ["a/b"; "moniker://a/b"]
      (Scenario.warmed
         (Scenario.cfg 60 true) Scenario.binding)
      (Scenario.world Scenario.timeout)
    = (Ok results,
       Scenario.warmed (Scenario.cfg 60 true) Scenario.binding,
       Scenario.world Scenario.timeout)
    /\ (forall m, In m ["a/b"; "moniker://a/b"]%string ->
          is_Some (results !! PyStr.replace scheme "" (normalize m)))
    /\ (forall k r, results !! k = Some r ->
          exists m, In m ["a/b"; "moniker://a/b"]%string
                    /\ k = PyStr.replace scheme "" (normalize m)
                    /\ cache_hit
                         (Scenario.warmed (Scenario.cfg 60 true)
                                          Scenario.binding)
                         (Scenario.world Scenario.timeout)
                         (normalize m) = Some r).
Proof.
  apply (batch_resolve_all_cached ["a/b"; "moniker://a/b"]%string
           (Scenario.warmed (Scenario.cfg 60 true) Scenario.binding)
           (Scenario.world Scenario.timeout)).
  repeat constructor; vm_compute; discriminate.
Defined.

End ClientMore.

Section BatchMore.
Import Exn PyVal Resilience Client Endpoints.







(** X19. [describe] is one GET outside the cache, the retry engine and
    the breaker: whatever comes back there is exactly one request in the
    trace; a 404 raises [NotFoundError], any other status outside 2xx
    raises the status error of [raise_for_status], and every 2xx status
    returns the decoded body. *)
Theorem describe_outcomes (m : string) (self : MonikerClient) (w : World) :
  let p := PyStr.replace scheme "" (normalize m) in
  let rq := {| meth := GET;
               url := (service_url (config self) ++ "/describe/" ++ p)%string;
               payload := NoBody |} in
  trace (snd (describe m self w)) = trace w ++ [Http rq]
  /\ forall resp,
       outcome (server w (sent w) rq) = Answer resp ->
       (status_code resp = 404%Z ->
        fst (describe m self w)
        = Raise (NotFoundError ("Path not found: " ++ p)%string))
       /\ ((200 <= status_code resp <= 299)%Z ->
           fst (describe m self w) = json resp)
       /\ (status_code resp <> 404%Z ->
           ~ (200 <= status_code resp <= 299)%Z ->
           fst (describe m self w)
           = Raise (HTTPStatusError (status_code resp))).
Proof.
  intros p rq. unfold describe, get_json, http. fold p. fold rq. split.
  - destruct (outcome (server w (sent w) rq)) as [resp|e]; [| reflexivity].
    destruct (status_code resp =? 404)%Z; [reflexivity |].
    destruct (raise_for_status resp); reflexivity.
  - intros resp ->. unfold raise_for_status. repeat split.
    + intros ->. reflexivity.
    + intros [H1 H2].
      destruct (Z.eqb_spec (status_code resp) 404); [lia |].
      destruct (Z.leb_spec 200 (status_code resp)); [| lia].
      destruct (Z.leb_spec (status_code resp) 299); [| lia].
      reflexivity.
    + intros H404 Hno.
      destruct (Z.eqb_spec (status_code resp) 404); [contradiction |].
      destruct (Z.leb_spec 200 (status_code resp));
        destruct (Z.leb_spec (status_code resp) 299);
        try reflexivity; lia.
Qed.

Lemma describe_outcomes_witness :
  fst (describe "a/b" (Scenario.tripped (Scenario.cfg 60 true))
         (Scenario.world (Scenario.answer 500 "boom" Scenario.no_json)))
  = Raise (HTTPStatusError 500).
Proof.
  apply (proj2 (describe_outcomes "a/b"
                  (Scenario.tripped (Scenario.cfg 60 true))
                  (Scenario.world
                     (Scenario.answer 500 "boom" Scenario.no_json)))
               {| status_code := 500; text := "boom";
                  json := Scenario.no_json |} eq_refl);
    cbn [status_code]; lia.
Defined.

End BatchMore.

(** ** More on the Oracle adapter's filters and passes *)

Section FilterFacts.
Import Exn PyVal PyStr Oracle OracleFilters.
Local Open Scope string_scope.

Lemma dict_set_in d k v k' v' :
  In (k', v') (dict_set d k v) -> (k' = k /\ v' = v) \/ In (k', v') d.
Proof.
  induction d as [|[k0 v0] d IH]; cbn [dict_set].
  - intros [[= <- <-]|[]]. now left.
  - destruct (String.eqb k0 k) eqn:E.
    + apply String.eqb_eq in E. subst k0.
      intros [[= <- <-]|Hin]; [now left | right; now right].
    + intros [Heq|Hin]; [right; now left |].
      destruct (IH Hin) as [H|H]; [now left | right; now right].
Qed.

Lemma dict_set_keys d k v k' :
  In k' (map fst (dict_set d k v)) -> k' = k \/ In k' (map fst d).
Proof.
  intros H. apply in_map_iff in H as ([k0 v0] & <- & Hin).
  apply dict_set_in in Hin as [[-> _]|Hin]; [now left | right].
  apply in_map_iff. now exists (k0, v0).
Qed.

Lemma dict_set_nodup d k v :
  List.NoDup (map fst d) -> List.NoDup (map fst (dict_set d k v)).
Proof.
  induction d as [|[k0 v0] d IH]; cbn [dict_set map fst]; intros Hnd.
  - constructor; [intros [] | constructor].
  - inversion Hnd as [|? ? Hnotin Hrest]; subst.
    destruct (String.eqb k0 k) eqn:E; cbn [map fst].
    + now constructor.
    + constructor; [| now apply IH].
      intros Hin. apply dict_set_keys in Hin as [->|Hin]; [| contradiction].
      now rewrite String.eqb_refl in E.
Qed.

Lemma filters_ok_set filters k v :
  filters_ok filters -> reserved k = false -> is_none v = false ->
  filters_ok (dict_set filters k v).
Proof.
  intros [Hnd Hall] Hk Hv. split; [now apply dict_set_nodup |].
  intros k' v' Hin. apply dict_set_in in Hin as [[-> ->]|Hin]; [| auto].
  split; [exact Hk |]. intros ->. discriminate.
Qed.

Lemma add_nested_ok filters kv :
  filters_ok filters -> filters_ok (add_nested filters kv).
Proof.
  intros H. destruct kv as [k v]. unfold add_nested.
  destruct (reserved k) eqn:Ek; [exact H |].
  destruct (is_none v) eqn:Ev; [exact H |].
  now apply filters_ok_set.
Qed.

Lemma add_top_ok filters kv :
  filters_ok filters -> filters_ok (add_top filters kv).
Proof.
  intros H. destruct kv as [k v]. unfold add_top.
  destruct (reserved k) eqn:Ek; [exact H |].
  destruct (is_dict v); [exact H |].
  destruct (is_none v) eqn:Ev; [exact H |].
  now apply filters_ok_set.
Qed.

Lemma fold_ok (f : pydict -> string * pyval -> pydict) l :
  (forall filters kv, filters_ok filters -> filters_ok (f filters kv)) ->
  forall filters, filters_ok filters -> filters_ok (fold_left f l filters).
Proof.
  intros Hf. induction l as [|kv l IH]; intros filters H; [exact H |].
  cbn. apply IH, Hf, H.
Qed.

(** X20. Whatever the parameter mapping holds, the extracted filters
    have distinct keys, none of them reserved, and no [None] value. *)
Theorem extract_filters_invariant (params : pydict) :
  List.NoDup (map fst (_extract_filters params))
  /\ forall k v, In (k, v) (_extract_filters params) ->
                 reserved k = false /\ v <> PNone.
Proof.
  unfold _extract_filters. apply (fold_ok add_top); [apply add_top_ok |].
  assert (H0 : filters_ok []) by (split; [constructor | intros ? ? []]).
  destruct (if dict_mem params "moniker_params"
            then dict_get params "moniker_params" else PDict []);
    try exact H0.
  apply (fold_ok add_nested); [apply add_nested_ok | exact H0].
Qed.

Lemma extract_filters_invariant_witness :
  reserved "dept" = false /\ PStr "x" <> PNone.
Proof.
  apply (proj2 (extract_filters_invariant
                  [("limit", PInt 5); ("dept", PStr "x");
                   ("as_of", PStr "1")]) "dept" (PStr "x")).
  vm_compute. now left.
Defined.

Lemma dict_get_set_eq d k v : dict_get (dict_set d k v) k = v.
Proof.
  induction d as [|[k0 v0] d IH]; cbn [dict_set dict_get].
  - now rewrite String.eqb_refl.
  - destruct (String.eqb k0 k) eqn:E; cbn [dict_get]; now rewrite E.
Qed.

Lemma dict_get_set_ne d k v k' :
  k <> k' -> dict_get (dict_set d k v) k' = dict_get d k'.
Proof.
  intros Hne. induction d as [|[k0 v0] d IH]; cbn [dict_set dict_get].
  - now apply String.eqb_neq in Hne as ->.
  - destruct (String.eqb k0 k) eqn:E; cbn [dict_get].
    + apply String.eqb_eq in E. subst k0.
      now apply String.eqb_neq in Hne as ->.
    + now rewrite IH.
Qed.

Lemma fold_add_top_other l k :
  ~ In k (map fst l) ->
  forall filters, dict_get (fold_left add_top l filters) k
                  = dict_get filters k.
Proof.
  induction l as [|[k0 v0] l IH]; intros Hnot filters; [reflexivity |].
  cbn [fold_left]. rewrite IH by (intros H; apply Hnot; now right).
  unfold add_top.
  destruct (negb (reserved k0) && negb (is_dict v0) && negb (is_none v0));
    [| reflexivity].
  apply dict_get_set_ne. intros ->. apply Hnot. now left.
Qed.

(** X21. A top-level parameter that qualifies as a filter (its key is not
    reserved, its value neither a mapping nor [None]) is extracted with
    its own value, also when [moniker_params] has the same key. *)
Theorem extract_filters_top_level_wins (params : pydict) (k : string)
        (v : pyval) :
  List.NoDup (map fst params) ->
  In (k, v) params ->
  reserved k = false -> is_dict v = false -> is_none v = false ->
  dict_get (_extract_filters params) k = v.
Proof.
  intros Hnd Hin Hk Hd Hn. unfold _extract_filters.
  generalize (match (if dict_mem params "moniker_params"
                     then dict_get params "moniker_params" else PDict [])
              with
              | PDict d => fold_left add_nested d []
              | _ => []
              end).
  induction params as [|[k0 v0] params IH]; intros filters; [destruct Hin |].
  inversion Hnd as [|? ? Hnotin Hrest]; subst. cbn [fold_left].
  destruct Hin as [[= -> ->]|Hin].
  - rewrite fold_add_top_other by exact Hnotin.
    unfold add_top. rewrite Hk, Hd, Hn. apply dict_get_set_eq.
  - now apply IH.
Qed.

Lemma extract_filters_top_level_wins_witness :
  dict_get (_extract_filters
              [("moniker_params", PDict [("region", PStr "EU")]);
               ("region", PStr "US"); ("limit", PInt 5)])
           "region" = PStr "US".
Proof.
  apply (extract_filters_top_level_wins
           [("moniker_params", PDict [("region", PStr "EU")]);
            ("region", PStr "US"); ("limit", PInt 5)] "region" (PStr "US"));
    try (vm_compute; reflexivity).
  - repeat constructor; cbn; intros H;
      repeat (destruct H as [H|H]; [discriminate H |]); exact H.
  - right. now left.
Defined.

(** X22. Limit injection is guarded and idempotent: a query that already
    has a [FETCH] token is returned as it is, injecting twice is injecting
    once, and otherwise the clause is appended to a text that no longer
    ends with whitespace. *)
Theorem inject_limit_guard (query : string) (limit : pyval) :
  (contains "FETCH " (upper query) = true -> _inject_limit query limit = query)
  /\ _inject_limit (_inject_limit query limit) limit
     = _inject_limit query limit
  /\ (contains "FETCH " (upper query) = false ->
      exists q',
        _inject_limit query limit
        = q' ++ " FETCH FIRST " ++ py_str limit ++ " ROWS ONLY"
        /\ forall t c, isspace c = true -> q' <> t ++ String c "").
Proof.
  split; [| split].
  - intros H. unfold _inject_limit. now rewrite H.
  - apply inject_limit_idem.
  - intros H. unfold _inject_limit. rewrite H.
    exists (rstrip_ws (rstrip ";" query)). split; [reflexivity |].
    intros t c Hc. apply (stripped_no_trailing isspace); [exact Hc |].
    apply rstrip_by_idem.
Qed.

Lemma inject_limit_guard_witness :
  _inject_limit "SELECT * FROM t FETCH FIRST 5 ROWS ONLY" (PInt 9)
  = "SELECT * FROM t FETCH FIRST 5 ROWS ONLY".
Proof.
  apply (proj1 (inject_limit_guard
                  "SELECT * FROM t FETCH FIRST 5 ROWS ONLY" (PInt 9))).
  vm_compute. reflexivity.
Defined.

(** X23. For a non-empty query, [_build_query] raises exactly when the
    temporal value ([as_of], else [moniker_version]) is truthy and not a
    string, for instance a system change number given as a JSON number:
    the error is the [AttributeError] of the missing [isdigit]. In every
    other case it returns a query. *)
Theorem build_query_temporal_type (q : string) (params : pydict) :
  q <> "" ->
  let v := py_or (dict_get params "as_of")
                 (dict_get params "moniker_version") in
  (truthy v = true -> is_str v = false ->
   build_query (Some q) params
   = Raise (OtherError "AttributeError"
              ("'" ++ py_type v ++ "' object has no attribute 'isdigit'")))
  /\ (truthy v = false \/ is_str v = true ->
      exists q1, build_query (Some q) params = Ok (Some q1)).
Proof.
  intros Hne v. unfold build_query.
  destruct q as [|c q]; [now destruct Hne |]. fold v. split.
  - intros Ht Hs. rewrite Ht. unfold _inject_flashback.
    destruct v; try reflexivity. discriminate Hs.
  - intros [Ht|Hs].
    + rewrite Ht. eauto.
    + destruct (truthy v); [| eauto].
      destruct v; try discriminate Hs. unfold _inject_flashback.
      destruct (find " FROM " (upper (String c q))); eauto.
Qed.

Lemma build_query_temporal_type_witness :
  build_query (Some "SELECT * FROM t") [("as_of", PInt 12345)]
  = Raise (OtherError "AttributeError"
             "'int' object has no attribute 'isdigit'").
Proof.
  apply (proj1 (build_query_temporal_type "SELECT * FROM t"
                  [("as_of", PInt 12345)] ltac:(discriminate)));
    reflexivity.
Defined.

End FilterFacts.

(** ** Where the Oracle adapter's passes insert *)

Section InsertionFacts.
Import Exn PyVal PyStr Oracle.
Local Open Scope string_scope.

Lemma take_drop n s : take n s ++ drop n s = s.
Proof.
  revert s. induction n as [|n IH]; intros s; [reflexivity |].
  destruct s as [|a s]; [reflexivity |]. cbn. now rewrite IH.
Qed.

Lemma take_add n k s : take (n + k) s = take n s ++ take k (drop n s).
Proof.
  revert s. induction n as [|n IH]; intros s; [reflexivity |].
  destruct s as [|a s]; cbn; [now destruct k | now rewrite IH].
Qed.


Lemma upper_take n s : upper (take n s) = take n (upper s).
Proof.
  revert s. induction n as [|n IH]; intros s; [reflexivity |].
  destruct s as [|a s]; cbn; [reflexivity | now rewrite IH].
Qed.


Lemma upper_length s : String.length (upper s) = String.length s.
Proof. induction s as [|a s IH]; cbn; [reflexivity | now rewrite IH]. Qed.

Lemma drop_length n s :
  String.length (drop n s) = (String.length s - n)%nat.
Proof.
  revert s. induction n as [|n IH]; intros s; cbn; [lia |].
  destruct s as [|a s]; cbn; [reflexivity | apply IH].
Qed.


Lemma prefix_split p s :
  String.prefix p s = true -> s = p ++ drop (String.length p) s.
Proof.
  revert s. induction p as [|a p IH]; intros s H; [reflexivity |].
  destruct s as [|b s]; [discriminate |]. cbn in H |- *.
  destruct (ascii_dec a b) as [->|]; [| discriminate].
  now rewrite <- IH.
Qed.

(** Where [find] answers, the substring is. *)
Lemma find_some sub s n :
  find sub s = Some n -> String.prefix sub (drop n s) = true.
Proof.
  revert n. induction s as [|a s IH]; intros n; rewrite find_unfold.
  - destruct (String.prefix sub "") eqn:E; [| discriminate].
    now intros [= <-].
  - destruct (String.prefix sub (String a s)) eqn:E.
    + now intros [= <-].
    + destruct (find sub s) as [i|]; [| discriminate].
      intros [= <-]. cbn. now apply IH.
Qed.




Lemma first_marker_ge lookup markers m :
  (forall marker pos, lookup marker = Some pos -> (m <= pos)%nat) ->
  forall end_pos, (m <= end_pos)%nat ->
                  (m <= first_marker lookup markers end_pos)%nat.
Proof.
  intros Hl. unfold first_marker.
  induction markers as [|marker markers IH]; intros end_pos Hle;
    [exact Hle |].
  cbn [fold_left]. apply IH.
  destruct (lookup marker) as [pos|] eqn:E; [| exact Hle].
  destruct (pos <? end_pos)%nat; [now apply (Hl marker) | exact Hle].
Qed.

Lemma find_from_ge sub s start pos :
  find_from sub s start = Some pos -> (start <= pos)%nat.
Proof.
  unfold find_from. destruct (start <=? String.length s)%nat; [| discriminate].
  destruct (find sub (drop start s)); [| discriminate].
  intros [= <-]. lia.
Qed.

Lemma take_app_more a s k :
  take (String.length a + k) (a ++ s) = a ++ take k s.
Proof. induction a as [|x a IH]; cbn; [reflexivity | now rewrite IH]. Qed.

(** X25. On an ASCII query and an ASCII temporal value, temporal
    injection only inserts, and after the [FROM] keyword. Without a [FROM]
    keyword the query is returned unchanged; with one, the clause is
    inserted at one position of the query, the text on both sides is kept,
    and the text before the clause contains the keyword. *)
Theorem flashback_injection_structure (query as_of : string) :
  isascii query = true ->
  isascii as_of = true ->
  (find " FROM " (upper query) = None ->
   _inject_flashback query (PStr as_of) = Ok query)
  /\ (contains " FROM " (upper query) = true ->
      exists a b,
        query = a ++ b
        /\ _inject_flashback query (PStr as_of)
           = Ok (a ++ flashback_clause as_of ++ b)
        /\ contains " FROM " (upper a) = true).
Proof.
  intros _ _. unfold _inject_flashback, contains. split.
  - now intros ->.
  - destruct (find " FROM " (upper query)) as [from_pos|] eqn:Ef;
      [intros _ | discriminate].
    set (end_pos := first_marker _ _ _).
    exists (take end_pos query), (drop end_pos query).
    split; [symmetry; apply take_drop |]. split; [reflexivity |].
    apply find_some, prefix_split in Ef.
    assert (Hlen : (from_pos + 6 <= String.length query)%nat).
    { pose proof (f_equal String.length Ef) as Hl.
      rewrite append_length, drop_length, upper_length in Hl.
      cbn in Hl. lia. }
    assert (Hge : (from_pos + 6 <= end_pos)%nat).
    { apply first_marker_ge; [| exact Hlen].
      intros marker pos. apply find_from_ge. }
    rewrite upper_take.
    replace end_pos with (from_pos + (6 + (end_pos - from_pos - 6)))%nat
      by lia.
    rewrite take_add, Ef.
    rewrite (take_app_more " FROM " _ (end_pos - from_pos - 6)).
    fold (contains " FROM "
            (take from_pos (upper query) ++ " FROM "
             ++ take (end_pos - from_pos - 6)
                  (drop (String.length " FROM ")
                        (drop from_pos (upper query))))).
    apply contains_app.
Qed.

Lemma flashback_injection_structure_witness :
  exists a b,
    "SELECT * FROM t WHERE x = 1" = a ++ b
    /\ _inject_flashback "SELECT * FROM t WHERE x = 1" (PStr "123")
       = Ok (a ++ flashback_clause "123" ++ b)
    /\ contains " FROM " (upper a) = true.
Proof.
  apply (proj2 (flashback_injection_structure
                  "SELECT * FROM t WHERE x = 1" "123"
                  ltac:(vm_compute; reflexivity)
                  ltac:(vm_compute; reflexivity))).
  vm_compute. reflexivity.
Defined.

End InsertionFacts.

(** ** The connection cache of the Oracle adapter *)

Section ConnectionFacts.
Import Exn OracleConnections.

(** X26. A connection obtained from [_get_connection] is the one cached
    under [user@dsn], the entries of other keys are untouched, and as long
    as it answers the ping the next call returns it without connecting;
    a stale connection is evicted even when reconnecting fails. *)
Theorem connection_is_cached_and_reused (dsn user password : string)
        (oracledb : Driver) (cache : gmap string Conn) :
  (forall conn cache' calls,
      _get_connection dsn user password oracledb cache
      = (Ok conn, cache', calls) ->
      cache' !! cache_key user dsn = Some conn
      /\ (forall k, k <> cache_key user dsn -> cache' !! k = cache !! k)
      /\ forall oracledb',
           ping_ok oracledb' conn = true ->
           _get_connection dsn user password oracledb' cache'
           = (Ok conn, cache', [Ping conn]))
  /\ (forall stale e,
        cache !! cache_key user dsn = Some stale ->
        ping_ok oracledb stale = false ->
        connect oracledb user password dsn = Raise e ->
        _get_connection dsn user password oracledb cache
        = (Raise e, delete (cache_key user dsn) cache,
           [Ping stale; Connect user password dsn])).
Proof.
  split.
  - intros conn cache' calls. unfold _get_connection, connect_and_cache.
    destruct (cache !! cache_key user dsn) as [c|] eqn:Ec.
    + destruct (ping_ok oracledb c) eqn:Ep.
      * intros [= <- <- _]. repeat split; auto.
        intros oracledb' Hp. now rewrite Ec, Hp.
      * destruct (connect oracledb user password dsn); [| discriminate].
        intros [= <- <- _]. split; [apply lookup_insert_eq |]. split.
        -- intros k Hk. rewrite lookup_insert_ne by congruence.
           now apply lookup_delete_ne.
        -- intros oracledb' Hp. now rewrite lookup_insert_eq, Hp.
    + destruct (connect oracledb user password dsn); [| discriminate].
      intros [= <- <- _]. split; [apply lookup_insert_eq |]. split.
      * intros k Hk. now rewrite lookup_insert_ne by congruence.
      * intros oracledb' Hp. now rewrite lookup_insert_eq, Hp.
  - intros stale e Hc Hp Hconn. unfold _get_connection, connect_and_cache.
    now rewrite Hc, Hp, Hconn.
Qed.

Lemma connection_is_cached_and_reused_witness :
  _get_connection "localhost:1521/ORCL" "user" "pass"
    {| ping_ok := fun _ => false;
       connect := fun _ _ _ => Raise (OtherError "DatabaseError" "ORA-12541") |}
    {[ cache_key "user" "localhost:1521/ORCL" := 7%nat ]}
  = (Raise (OtherError "DatabaseError" "ORA-12541"),
     delete (cache_key "user" "localhost:1521/ORCL")
            {[ cache_key "user" "localhost:1521/ORCL" := 7%nat ]},
     [Ping 7%nat; Connect "user" "pass" "localhost:1521/ORCL"]).
Proof.
  apply (proj2 (connection_is_cached_and_reused "localhost:1521/ORCL"
                  "user" "pass"
                  {| ping_ok := fun _ => false;
                     connect := fun _ _ _ =>
                       Raise (OtherError "DatabaseError" "ORA-12541") |}
                  {[ cache_key "user" "localhost:1521/ORCL" := 7%nat ]})
               7%nat (OtherError "DatabaseError" "ORA-12541"));
    reflexivity.
Defined.

End ConnectionFacts.

(** ** The scheme prefix of a moniker argument *)

Section SchemeFacts.
Import Exn PyVal PyStr Resilience Client Endpoints.

Lemma normalize_idem m : normalize (normalize m) = normalize m.
Proof.
  unfold normalize. destruct (startswith scheme m) eqn:E.
  - now rewrite E.
  - unfold startswith. now rewrite prefix_app_self.
Qed.

Lemma replace_go_absent old new s :
  contains old s = false -> replace_go old new O s = s.
Proof.
  induction s as [|a s IH]; [reflexivity |].
  unfold contains. rewrite find_unfold. cbn [replace_go].
  destruct (String.prefix old (String a s)); [discriminate |].
  intros H. rewrite IH; [reflexivity |].
  unfold contains. now destruct (find old s).
Qed.

(** X27. The scheme prefix of a moniker argument is optional: [resolve],
    [read] and [describe] do the same with [m] and with [m] already
    normalized, so that both spellings share one cache entry. *)
Theorem scheme_prefix_is_optional (m : string) (self : MonikerClient)
        (w : World) :
  resolve (normalize m) self w = resolve m self w
  /\ read (normalize m) self w = read m self w
  /\ describe (normalize m) self w = describe m self w.
Proof.
  unfold resolve, read, describe, get_json.
  now rewrite normalize_idem.
Qed.

(** X28. For a moniker in which the scheme does not occur, the path sent
    to the resolver is the moniker itself, and it is also the path sent
    for the moniker written with the scheme. *)
Theorem request_path_of_plain_moniker (m : string) :
  contains scheme m = false ->
  replace scheme "" (normalize m) = m
  /\ replace scheme "" (scheme ++ m)%string = m.
Proof.
  intros Hno.
  assert (Hs : replace scheme "" (scheme ++ m)%string = m).
  { unfold replace, scheme. cbn. rewrite prefix_nil.
    now apply replace_go_absent. }
  split; [| exact Hs].
  unfold normalize. destruct (startswith scheme m) eqn:E; [| exact Hs].
  unfold contains in Hno. rewrite find_unfold in Hno.
  unfold startswith in E. rewrite E in Hno. discriminate.
Qed.

Lemma request_path_of_plain_moniker_witness :
  replace scheme "" (normalize "risk.cvar/DESK_A/20240115/ALL")
  = "risk.cvar/DESK_A/20240115/ALL"%string.
Proof.
  eapply proj1.
  apply (request_path_of_plain_moniker "risk.cvar/DESK_A/20240115/ALL").
  vm_compute. reflexivity.
Defined.

End SchemeFacts.
